(** * Totpify: HOTP/TOTP code engine

    A shallow embedding of the code engine of the totpify library
    ([utils.ts]: [normalizeSecret], [decodeBase32], [generateHOTP];
    [totp.ts]: [generateTOTP], [verifyTOTP]) together with the properties
    its specification states about it.

    Conventions of the embedding.
    - A JavaScript number that holds an integer is a [Z]; the 32-bit
      conversions that the bitwise operators perform are written out
      ([JS.toInt32], [JS.toUint32]).  Values stay below 2^53, where the
      arithmetic of doubles on integers is exact.
    - A JavaScript string is a [string] of ASCII characters; [\s], [\d] and
      [toUpperCase] are modelled on that range.
    - A [Uint8Array] or [Buffer] is a [list Z] of bytes; reading outside of
      it gives [undefined], which the bitwise operators turn into 0.
    - [throw] is the [Throw] outcome of the monad [M], which also records
      every call of the keyed hash. *)

From Stdlib Require Import ZArith List String Ascii QArith Qround Bool Lia.
From stdpp Require Import base list.
Import ListNotations.

Local Open Scope Z_scope.

(** ** JavaScript integer operators *)

Module JS.

Definition toUint32 (x : Z) : Z := x mod 2 ^ 32.

Definition toInt32 (x : Z) : Z :=
  let u := toUint32 x in if u <? 2 ^ 31 then u else u - 2 ^ 32.

(** [a & b] *)
Definition and (a b : Z) : Z := Z.land (toInt32 a) (toInt32 b).

(** [a | b] *)
Definition or (a b : Z) : Z := Z.lor (toInt32 a) (toInt32 b).

(** [a << n] *)
Definition shl (a n : Z) : Z := toInt32 (Z.shiftl (toInt32 a) (toUint32 n mod 32)).

(** [a >>> n] *)
Definition ushr (a n : Z) : Z := Z.shiftr (toUint32 a) (toUint32 n mod 32).

(** [buf[i]] followed by a bitwise operator: [undefined] counts as 0. *)
Definition at_ (buf : list Z) (i : Z) : Z :=
  if i <? 0 then 0 else default 0 (buf !! Z.to_nat i).

End JS.

(** ** The keyed hash of Node's [crypto] module

    [crypto.createHmac(name, key).update(message).digest()] for the three
    hash functions of [algoMap]: SHA-1 and SHA-2 as FIPS 180-4 defines them,
    HMAC as RFC 2104 does. *)

Inductive HashAlgorithm : Type := SHA1 | SHA256 | SHA512.

Module Crypto.

Definition wrap (w x : Z) : Z := x mod 2 ^ w.

Definition rotl (w n x : Z) : Z :=
  wrap w (Z.lor (Z.shiftl x n) (Z.shiftr x (w - n))).

Definition rotr (w n x : Z) : Z := rotl w (w - n) x.

Definition lnot (w x : Z) : Z := Z.lxor x (2 ^ w - 1).

(** Big-endian bytes of a word and back. *)
Fixpoint be_bytes (n : nat) (x : Z) : list Z :=
  match n with
  | O => []
  | S n' => be_bytes n' (x / 256) ++ [x mod 256]
  end.

Definition be_word (bs : list Z) : Z :=
  fold_left (fun acc b => acc * 256 + b) bs 0.

Fixpoint chunks (k n : nat) (l : list Z) : list (list Z) :=
  match k with
  | O => []
  | S k' => firstn n l :: chunks k' n (skipn n l)
  end.

(** Message padding: a 1 bit, zeros, and the bit length in [lenBytes]
    bytes, up to a multiple of [block] bytes. *)
Definition pad (block lenBytes : nat) (msg : list Z) : list Z :=
  let len := length msg in
  let used := ((len + 1 + lenBytes) mod block)%nat in
  let zeros := ((block - used) mod block)%nat in
  msg ++ [128] ++ repeat 0 zeros ++ be_bytes lenBytes (8 * Z.of_nat len).

Definition blocks (block lenBytes wordBytes : nat) (msg : list Z)
  : list (list Z) :=
  let padded := pad block lenBytes msg in
  map (fun b => map be_word (chunks (block / wordBytes) wordBytes b))
      (chunks (length padded / block) block padded).

(** Message schedule: [rev_ws] holds the words so far, latest first. *)
Fixpoint expand (n : nat) (next : list Z -> Z) (rev_ws : list Z) : list Z :=
  match n with
  | O => rev rev_ws
  | S n' => expand n' next (next rev_ws :: rev_ws)
  end.

Definition word_at (ws : list Z) (i : nat) : Z := nth i ws 0.

(** *** SHA-1 *)

Definition sha1_f (t : nat) (b c d : Z) : Z :=
  if (t <? 20)%nat then Z.lor (Z.land b c) (Z.land (lnot 32 b) d)
  else if (t <? 40)%nat then Z.lxor (Z.lxor b c) d
  else if (t <? 60)%nat then
    Z.lor (Z.lor (Z.land b c) (Z.land b d)) (Z.land c d)
  else Z.lxor (Z.lxor b c) d.

Definition sha1_k (t : nat) : Z :=
  if (t <? 20)%nat then 0x5a827999
  else if (t <? 40)%nat then 0x6ed9eba1
  else if (t <? 60)%nat then 0x8f1bbcdc
  else 0xca62c1d6.

Definition sha1_next (rev_ws : list Z) : Z :=
  rotl 32 1 (Z.lxor (Z.lxor (word_at rev_ws 2) (word_at rev_ws 7))
                    (Z.lxor (word_at rev_ws 13) (word_at rev_ws 15))).

Definition sha1_round (st : list Z) (tw : nat * Z) : list Z :=
  match st with
  | [a; b; c; d; e] =>
      let temp :=
        wrap 32 (rotl 32 5 a + sha1_f (fst tw) b c d + e
                 + sha1_k (fst tw) + snd tw) in
      [temp; a; rotl 32 30 b; c; d]
  | _ => st
  end.

Definition sha1_compress (h block : list Z) : list Z :=
  let ws := expand 64 sha1_next (rev block) in
  let st := fold_left sha1_round (combine (seq 0 80) ws) h in
  map (fun p => wrap 32 (fst p + snd p)) (combine h st).

Definition sha1_init : list Z :=
  [0x67452301; 0xefcdab89; 0x98badcfe; 0x10325476; 0xc3d2e1f0].

Definition sha1 (msg : list Z) : list Z :=
  concat (map (be_bytes 4)
              (fold_left sha1_compress (blocks 64 8 4 msg) sha1_init)).

(** *** SHA-2 (SHA-256 and SHA-512 differ in their parameters only) *)

Record sha2_params : Type := {
  wbits : Z;
  wordBytes : nat;
  rounds : nat;
  kconst : list Z;
  hinit : list Z;
  bigSigma0 : Z * Z * Z;
  bigSigma1 : Z * Z * Z;
  smallSigma0 : Z * Z * Z;
  smallSigma1 : Z * Z * Z
}.

Section SHA2.
Variable P : sha2_params.

Let w := wbits P.

Definition add2 (x y : Z) : Z := wrap w (x + y).

Definition big_sigma (r : Z * Z * Z) (x : Z) : Z :=
  let '(r1, r2, r3) := r in
  Z.lxor (Z.lxor (rotr w r1 x) (rotr w r2 x)) (rotr w r3 x).

Definition small_sigma (r : Z * Z * Z) (x : Z) : Z :=
  let '(r1, r2, s) := r in
  Z.lxor (Z.lxor (rotr w r1 x) (rotr w r2 x)) (Z.shiftr x s).

Definition ch (x y z : Z) : Z :=
  Z.lxor (Z.land x y) (Z.land (lnot w x) z).

Definition maj (x y z : Z) : Z :=
  Z.lxor (Z.lxor (Z.land x y) (Z.land x z)) (Z.land y z).

Definition sha2_next (rev_ws : list Z) : Z :=
  add2 (add2 (small_sigma (smallSigma1 P) (word_at rev_ws 1))
             (word_at rev_ws 6))
       (add2 (small_sigma (smallSigma0 P) (word_at rev_ws 14))
             (word_at rev_ws 15)).

Definition sha2_round (st : list Z) (kw : Z * Z) : list Z :=
  match st with
  | [a; b; c; d; e; f; g; h] =>
      let t1 :=
        add2 (add2 (add2 h (big_sigma (bigSigma1 P) e))
                   (add2 (ch e f g) (fst kw))) (snd kw) in
      let t2 := add2 (big_sigma (bigSigma0 P) a) (maj a b c) in
      [add2 t1 t2; a; b; c; add2 d t1; e; f; g]
  | _ => st
  end.

Definition sha2_compress (h block : list Z) : list Z :=
  let ws := expand (rounds P - 16) sha2_next (rev block) in
  let st := fold_left sha2_round (combine (kconst P) ws) h in
  map (fun p => add2 (fst p) (snd p)) (combine h st).

Definition sha2 (msg : list Z) : list Z :=
  concat (map (be_bytes (wordBytes P))
              (fold_left sha2_compress
                 (blocks (16 * wordBytes P) (2 * wordBytes P)
                         (wordBytes P) msg)
                 (hinit P))).
End SHA2.

(** The constants of SHA-2 are fractional parts of roots of the first
    primes (FIPS 180-4, sections 4.2.2, 4.2.3 and 5.3): [bits] bits of the
    cube roots for the round constants, of the square roots for the initial
    hash value. *)
Definition isPrime (n : Z) : bool :=
  forallb (fun d => negb (n mod Z.of_nat d =? 0))
          (seq 2 (Z.to_nat (Z.sqrt n) - 1)).

Definition firstPrimes (count : nat) : list Z :=
  firstn count (filter isPrime (map Z.of_nat (seq 2 408))).

(** The largest [r] in [[lo, hi)] with [r^3 <= n], by bisection. *)
Fixpoint cubeRootIn (fuel : nat) (n lo hi : Z) : Z :=
  match fuel with
  | O => lo
  | S fuel' =>
      if hi - lo <=? 1 then lo
      else let mid := (lo + hi) / 2 in
           if mid * mid * mid <=? n then cubeRootIn fuel' n mid hi
           else cubeRootIn fuel' n lo mid
  end.

Definition fracCubeRoot (bits p : Z) : Z :=
  cubeRootIn (Z.to_nat bits + 8) (p * 2 ^ (3 * bits)) 0 (2 ^ (bits + 4))
  mod 2 ^ bits.

Definition fracSquareRoot (bits p : Z) : Z :=
  Z.sqrt (p * 2 ^ (2 * bits)) mod 2 ^ bits.

Definition sha256_k : list Z :=
  Eval vm_compute in map (fracCubeRoot 32) (firstPrimes 64).

Definition sha256_init : list Z :=
  Eval vm_compute in map (fracSquareRoot 32) (firstPrimes 8).

Definition sha512_k : list Z :=
  Eval vm_compute in map (fracCubeRoot 64) (firstPrimes 80).

Definition sha512_init : list Z :=
  Eval vm_compute in map (fracSquareRoot 64) (firstPrimes 8).

Definition sha256_params : sha2_params := {|
  wbits := 32; wordBytes := 4; rounds := 64;
  kconst := sha256_k; hinit := sha256_init;
  bigSigma0 := (2, 13, 22); bigSigma1 := (6, 11, 25);
  smallSigma0 := (7, 18, 3); smallSigma1 := (17, 19, 10)
|}.

Definition sha512_params : sha2_params := {|
  wbits := 64; wordBytes := 8; rounds := 80;
  kconst := sha512_k; hinit := sha512_init;
  bigSigma0 := (28, 34, 39); bigSigma1 := (14, 18, 41);
  smallSigma0 := (1, 8, 7); smallSigma1 := (19, 61, 6)
|}.

(** *** HMAC *)

Definition hashOf (alg : HashAlgorithm) : list Z -> list Z :=
  match alg with
  | SHA1 => sha1
  | SHA256 => sha2 sha256_params
  | SHA512 => sha2 sha512_params
  end.

Definition blockSize (alg : HashAlgorithm) : nat :=
  match alg with SHA1 | SHA256 => 64%nat | SHA512 => 128%nat end.

Definition hmac (alg : HashAlgorithm) (key msg : list Z) : list Z :=
  let h := hashOf alg in
  let bs := blockSize alg in
  let k0 := if (bs <? length key)%nat then h key else key in
  let k := k0 ++ repeat 0 (bs - length k0) in
  h (map (Z.lxor 0x5c) k ++ h (map (Z.lxor 0x36) k ++ msg)).

End Crypto.

(** Test vectors of RFC 2202 and RFC 4231 (key "Jefe"). *)
Definition rfc_key : list Z := [74; 101; 102; 101].
Definition rfc_data : list Z :=
  [119; 104; 97; 116; 32; 100; 111; 32; 121; 97; 32; 119; 97; 110; 116; 32;
   102; 111; 114; 32; 110; 111; 116; 104; 105; 110; 103; 63].

(** ** Strings *)

Definition code (c : ascii) : Z := Z.of_nat (nat_of_ascii c).

(** [\s] on ASCII: tab, line feed, vertical tab, form feed, carriage return
    and space. *)
Definition isWhitespace (c : ascii) : bool :=
  ((9 <=? code c) && (code c <=? 13)) || (code c =? 32).

(** [\d] *)
Definition isDigit (c : ascii) : bool := (48 <=? code c) && (code c <=? 57).

(** [[A-Z2-7]] *)
Definition isBase32Char (c : ascii) : bool :=
  ((65 <=? code c) && (code c <=? 90)) || ((50 <=? code c) && (code c <=? 55)).

(** The characters of the ASCII range, to which the model of strings is
    held. *)
Definition isAscii (c : ascii) : bool := code c <? 128.

(** [toUpperCase] on one ASCII character: the letters a-z go to A-Z, no
    other character changes.  The special casing of Unicode, where one
    character can become two, is outside of the model. *)
Definition upperChar (c : ascii) : ascii :=
  if (97 <=? code c) && (code c <=? 122)
  then ascii_of_nat (nat_of_ascii c - 32) else c.

Fixpoint removeChars (p : ascii -> bool) (s : string) : string :=
  match s with
  | EmptyString => EmptyString
  | String c rest =>
      if p c then removeChars p rest else String c (removeChars p rest)
  end.

Fixpoint mapChars (f : ascii -> ascii) (s : string) : string :=
  match s with
  | EmptyString => EmptyString
  | String c rest => String (f c) (mapChars f rest)
  end.

Fixpoint allChars (p : ascii -> bool) (s : string) : bool :=
  match s with
  | EmptyString => true
  | String c rest => p c && allChars p rest
  end.

Definition isEmpty (s : string) : bool :=
  match s with EmptyString => true | _ => false end.

(** [s.toUpperCase()] for a string of ASCII characters. *)
Definition toUpperCase (s : string) : string := mapChars upperChar s.

(** [s.replace(/=+$/, '')]: drop the run of '=' that ends the string. *)
Fixpoint stripTrailingEquals (s : string) : string :=
  match s with
  | EmptyString => EmptyString
  | String c rest =>
      let rest' := stripTrailingEquals rest in
      if Ascii.eqb c "=" && isEmpty rest' then EmptyString
      else String c rest'
  end.

(** [/^[A-Z2-7]+$/.test(s)] and [/^\d+$/.test(s)] *)
Definition testBase32 (s : string) : bool :=
  negb (isEmpty s) && allChars isBase32Char s.

Definition testDigits (s : string) : bool :=
  negb (isEmpty s) && allChars isDigit s.

(** [s.indexOf(c)] for a one-character [c] *)
Fixpoint indexOfFrom (i : Z) (s : string) (c : ascii) : Z :=
  match s with
  | EmptyString => -1
  | String d rest => if Ascii.eqb d c then i else indexOfFrom (i + 1) rest c
  end.

Definition indexOf (s : string) (c : ascii) : Z := indexOfFrom 0 s c.

Definition strlen (s : string) : Z := Z.of_nat (String.length s).

(** [n.toString()] for an integer [n] *)
Definition digitChar (d : Z) : ascii := ascii_of_nat (48 + Z.to_nat d).

Fixpoint toDecimal (fuel : nat) (n : Z) (acc : string) : string :=
  match fuel with
  | O => acc
  | S fuel' =>
      let acc' := String (digitChar (n mod 10)) acc in
      if n <? 10 then acc' else toDecimal fuel' (n / 10) acc'
  end.

Definition toString (n : Z) : string :=
  if n <? 0 then String "-" (toDecimal (S (Z.to_nat (Z.log2 (- n)))) (- n) "")
  else toDecimal (S (Z.to_nat (Z.log2 n))) n "".

Fixpoint repeatChar (n : nat) (c : ascii) : string :=
  match n with
  | O => EmptyString
  | S n' => String c (repeatChar n' c)
  end.

(** [s.padStart(targetLength, c)] for a one-character [c] *)
Definition padStart (s : string) (targetLength : Z) (c : ascii) : string :=
  (repeatChar (Z.to_nat (targetLength - strlen s)) c ++ s)%string.

(** ** Outcomes and the monad of the engine *)

Inductive outcome (A : Type) : Type :=
| Return (a : A)
| Throw (message : string).
Arguments Return {A} a.
Arguments Throw {A} message.

(** The error kinds of the specification, by the message the code throws. *)
Definition EmptySecret : string := "Empty Base32 string".
Definition InvalidCharacter : string := "Invalid base32 character in key".
Definition MissingSecret : string := "Secret must be provided".
Definition InvalidSecret (cause : string) : string :=
  ("Invalid secret: " ++ cause)%string.

(** One call of the keyed hash: algorithm, key, message. *)
Definition HmacCall : Type := HashAlgorithm * list Z * list Z.

(** A computation gives an outcome and the calls of the keyed hash it has
    made, in order. *)
Definition M (A : Type) : Type := outcome A * list HmacCall.

Definition ret {A} (a : A) : M A := (Return a, []).

Definition throw {A} (message : string) : M A := (Throw message, []).

Definition bind {A B} (m : M A) (f : A -> M B) : M B :=
  match m with
  | (Return a, calls) => let (r, calls') := f a in (r, calls ++ calls')
  | (Throw e, calls) => (Throw e, calls)
  end.

Notation "'let*' x := m 'in' k" := (bind m (fun x => k))
  (at level 10, x name, m at level 100, k at level 200).

Definition result {A} (m : M A) : outcome A := fst m.
Definition hmacCalls {A} (m : M A) : list HmacCall := snd m.

(** ** utils.ts *)

Definition normalizeSecret (secret : string) : string :=
  toUpperCase (removeChars isWhitespace secret).

Definition alphabet : string := "ABCDEFGHIJKLMNOPQRSTUVWXYZ234567".

(** The loop of [decodeBase32]; [value] is a 32-bit integer that wraps. *)
Fixpoint decodeLoop (key : string) (bits value : Z) (result : list Z)
  : list Z :=
  match key with
  | EmptyString => result
  | String char rest =>
      let value := JS.or (JS.shl value 5) (indexOf alphabet char) in
      let bits := bits + 5 in
      if 8 <=? bits
      then decodeLoop rest (bits - 8) value
             (result ++ [JS.and (JS.ushr value (bits - 8)) 255])
      else decodeLoop rest bits value result
  end.

Definition normalizedKey (base32 : string) : string :=
  stripTrailingEquals (normalizeSecret base32).

Definition decodeBase32 (base32 : string) : outcome (list Z) :=
  let key := normalizedKey base32 in
  if strlen key =? 0 then Throw EmptySecret
  else if negb (testBase32 key) then Throw InvalidCharacter
  else Return (decodeLoop key 0 0 []).

(** The loop that fills [counterBuffer], from index 7 down to 0. *)
Fixpoint fillCounter (n : nat) (tempCounter : Z) (counterBuffer : list Z)
  : list Z :=
  match n with
  | O => counterBuffer
  | S i =>
      fillCounter i (JS.ushr tempCounter 8)
        (<[i := JS.and tempCounter 255]> counterBuffer)
  end.

Definition counterBuffer (counter : Z) : list Z :=
  fillCounter 8 counter (replicate 8 0).

Definition truncate (digest : list Z) : Z :=
  let offset := JS.and (JS.at_ digest (Z.of_nat (length digest) - 1)) 15 in
  JS.or
    (JS.or
       (JS.or (JS.shl (JS.and (JS.at_ digest offset) 127) 24)
              (JS.shl (JS.and (JS.at_ digest (offset + 1)) 255) 16))
       (JS.shl (JS.and (JS.at_ digest (offset + 2)) 255) 8))
    (JS.and (JS.at_ digest (offset + 3)) 255).

(** ** types.ts *)

Record TOTPOptions : Type := {
  algorithm : option HashAlgorithm;
  digits : option Z;
  period : option Z;
  timestamp : option Z;
  window : option Z
}.

Record VerifyResult : Type := {
  valid : bool;
  delta : option Z
}.

(** [secret: string | Uint8Array]; [NoSecret] is the [undefined] or [null]
    that a caller without types can pass. *)
Inductive Secret : Type :=
| TextSecret (text : string)
| RawSecret (bytes : list Z)
| NoSecret.

(** [!secret]: the empty string, [undefined] and [null] are falsy, an
    object such as a [Uint8Array] never is. *)
Definition isFalsy (secret : Secret) : bool :=
  match secret with
  | TextSecret text => isEmpty text
  | RawSecret _ => false
  | NoSecret => true
  end.

Section Engine.

(** [crypto.createHmac(name, key).update(message).digest()] *)
Variable createHmac : HashAlgorithm -> list Z -> list Z -> list Z.

(** [Date.now()] *)
Variable now : Z.

Definition digestOf (algorithm : HashAlgorithm) (key message : list Z)
  : M (list Z) :=
  (Return (createHmac algorithm key message), [(algorithm, key, message)]).

Definition generateHOTP (key : list Z) (counter : Z)
           (algorithm : HashAlgorithm) (digits : Z) : M string :=
  let* digest := digestOf algorithm key (counterBuffer counter) in
  let binary := truncate digest in
  let otp := Z.rem binary (10 ^ digits) in
  ret (padStart (toString otp) digits "0").

(** *** totp.ts *)

Definition counterAt (timestamp period : Z) : Z :=
  Qfloor (inject_Z timestamp / inject_Z 1000 / inject_Z period).

Definition generateTOTP (secret : Secret) (options : TOTPOptions)
  : M string :=
  let algorithm := default SHA1 (algorithm options) in
  let digits := default 6 (digits options) in
  let period := default 30 (period options) in
  let timestamp := default now (timestamp options) in
  if isFalsy secret then throw MissingSecret
  else
    let* secretBytes :=
      match secret with
      | TextSecret text =>
          match decodeBase32 text with
          | Return bytes => ret bytes
          | Throw message => throw (InvalidSecret message)
          end
      | RawSecret bytes => ret bytes
      | NoSecret => ret []
      end in
    let counter := counterAt timestamp period in
    generateHOTP secretBytes counter algorithm digits.

(** The loop of [verifyTOTP]: [n] iterations are left, [i] is the offset
    of the next one. *)
Fixpoint verifyLoop (token : string) (secret : Secret)
         (algorithm : HashAlgorithm) (digits period timestamp : Z)
         (n : nat) (i : Z) : M VerifyResult :=
  match n with
  | O => ret {| valid := false; delta := None |}
  | S n' =>
      let checkTime := timestamp + i * period * 1000 in
      let* generatedToken :=
        generateTOTP secret
          {| algorithm := Some algorithm; digits := Some digits;
             period := Some period; timestamp := Some checkTime;
             window := None |} in
      if String.eqb generatedToken token
      then ret {| valid := true; delta := Some i |}
      else verifyLoop token secret algorithm digits period timestamp
             n' (i + 1)
  end.

Definition verifyTOTP (token : string) (secret : Secret)
           (options : TOTPOptions) : M VerifyResult :=
  let window := default 1 (window options) in
  let algorithm := default SHA1 (algorithm options) in
  let digits := default 6 (digits options) in
  let period := default 30 (period options) in
  let timestamp := default now (timestamp options) in
  if isEmpty token || negb (strlen token =? digits)
     || negb (testDigits token)
  then ret {| valid := false; delta := None |}
  else verifyLoop token secret algorithm digits period timestamp
         (Z.to_nat (2 * window + 1)) (- window).

End Engine.

(** ** Reference definitions, from the words of the specification *)

(** The 8-byte big-endian serialisation of a counter: byte [i], counted
    from the most significant one, is [floor(counter / 256^(7-i)) mod 256]. *)
Definition bigEndian8 (counter : Z) : list Z :=
  map (fun i => (counter / 256 ^ (7 - Z.of_nat i)) mod 256) (seq 0 8).

(** RFC 4226 dynamic truncation: the offset is the low nibble of the last
    byte; the four bytes from there, the top bit of the first one cleared,
    read as a big-endian number. *)
Definition dynamicTruncation (digest : list Z) : Z :=
  let last := JS.at_ digest (Z.of_nat (length digest) - 1) in
  let offset := last mod 16 in
  (JS.at_ digest offset mod 128) * 2 ^ 24
  + (JS.at_ digest (offset + 1) mod 256) * 2 ^ 16
  + (JS.at_ digest (offset + 2) mod 256) * 2 ^ 8
  + JS.at_ digest (offset + 3) mod 256.

(** The number that a string of decimal digits denotes. *)
Fixpoint decimalValueFrom (acc : Z) (s : string) : Z :=
  match s with
  | EmptyString => acc
  | String c rest => decimalValueFrom (acc * 10 + (code c - 48)) rest
  end.

Definition decimalValue (s : string) : Z := decimalValueFrom 0 s.

(** [c] is one of the characters of [s]. *)
Fixpoint occursIn (c : ascii) (s : string) : Prop :=
  match s with
  | EmptyString => False
  | String d rest => d = c \/ occursIn c rest
  end.

(** A Base32 text as a stream of bits, five per symbol and the most
    significant first, read as a number. *)
Fixpoint bitStreamFrom (acc : Z) (key : string) : Z :=
  match key with
  | EmptyString => acc
  | String c rest => bitStreamFrom (acc * 32 + indexOf alphabet c) rest
  end.

Definition bitStream (key : string) : Z := bitStreamFrom 0 key.

(** The whole bytes of that stream: the [5n mod 8] bits left at the end of
    [n] symbols are dropped. *)
Definition wholeBytes (key : string) : list Z :=
  let n := strlen key in
  Crypto.be_bytes (Z.to_nat (5 * n / 8)) (bitStream key / 2 ^ ((5 * n) mod 8)).

(** The key that [generateTOTP] derives from a secret it accepts. *)
Definition keyBytes (secret : Secret) : option (list Z) :=
  match secret with
  | TextSecret text =>
      if isEmpty text then None
      else match decodeBase32 text with
           | Return bytes => Some bytes
           | Throw _ => None
           end
  | RawSecret bytes => Some bytes
  | NoSecret => None
  end.

(** The offsets [first], [first + 1], ... that [n] iterations of the
    window loop visit. *)
Definition offsets (first : Z) (n : nat) : list Z :=
  map (fun k => first + Z.of_nat k) (seq 0 n).

(** The options with which [verifyTOTP] calls [generateTOTP]. *)
Definition probe (algorithm : HashAlgorithm) (digits period checkTime : Z)
  : TOTPOptions :=
  {| algorithm := Some algorithm; digits := Some digits;
     period := Some period; timestamp := Some checkTime; window := None |}.

(** Options that set the time stamp only, or the time stamp and the window. *)
Definition atTime (t : Z) : TOTPOptions :=
  {| algorithm := None; digits := None; period := None;
     timestamp := Some t; window := None |}.

Definition atTimeWindow (t w : Z) : TOTPOptions :=
  {| algorithm := None; digits := None; period := None;
     timestamp := Some t; window := Some w |}.

(** [options] with another time stamp and window. *)
Definition withTimeWindow (options : TOTPOptions) (t : Z) (w : option Z)
  : TOTPOptions :=
  {| algorithm := algorithm options; digits := digits options;
     period := period options; timestamp := Some t; window := w |}.

Definition rejected : VerifyResult := {| valid := false; delta := None |}.

Definition accepted (i : Z) : VerifyResult :=
  {| valid := true; delta := Some i |}.

(** The secret of the tests of the library. *)
Definition testSecret : Secret := TextSecret "JBSWY3DPEHPK3PXP".

(** The call of the keyed hash that [generateTOTP] makes for a key, a
    period and a time stamp. *)
Definition hmacCallAt (algorithm : HashAlgorithm) (bytes : list Z)
           (period checkTime : Z) : HmacCall :=
  (algorithm, bytes, counterBuffer (counterAt checkTime period)).

(** The bytes that the secret of the tests decodes to. *)
Definition testKey : list Z := [72; 101; 108; 108; 111; 33; 222; 173; 190; 239].

(** The key of the test values of RFC 4226, appendix D: the ASCII text
    "12345678901234567890". *)
Definition rfc4226Key : list Z :=
  [49; 50; 51; 52; 53; 54; 55; 56; 57; 48;
   49; 50; 51; 52; 53; 54; 55; 56; 57; 48].

(** ** totp.ts: generateRandomSecret *)

(** [s[k]] appended to a string: the character of [s] at [k], or the text
    of [undefined] outside of [s]. *)
Definition charAtIndex (s : string) (k : Z) : string :=
  if k <? 0 then "undefined"%string
  else match String.get (Z.to_nat k) s with
       | Some c => String c EmptyString
       | None => "undefined"%string
       end.

Definition base32Chars : string := "ABCDEFGHIJKLMNOPQRSTUVWXYZ234567".

(** The loop of [generateRandomSecret] over [randomBytes], the [Uint8Array]
    of [length] bytes once the random source has filled it. *)
Fixpoint randomSecretLoop (randomBytes : list Z) (result : string) : string :=
  match randomBytes with
  | [] => result
  | byte :: rest =>
      randomSecretLoop rest
        (result ++ charAtIndex base32Chars (Z.rem byte (strlen base32Chars)))
  end.

Definition generateRandomSecret (randomBytes : list Z) : string :=
  randomSecretLoop randomBytes EmptyString.

(** ** cli.ts *)

(** [s.startsWith(prefix)] *)
Definition startsWith (s prefix : string) : bool := String.prefix prefix s.

(** [s.substring(n)] *)
Fixpoint substringFrom (n : nat) (s : string) : string :=
  match n, s with
  | O, _ => s
  | S n', String _ rest => substringFrom n' rest
  | S _, EmptyString => EmptyString
  end.

(** [s.split(sep)] for a one-character [sep] *)
Fixpoint split (sep : ascii) (s : string) : list string :=
  match s with
  | EmptyString => [EmptyString]
  | String c rest =>
      if Ascii.eqb c sep then EmptyString :: split sep rest
      else match split sep rest with
           | first :: others => String c first :: others
           | [] => [String c EmptyString]
           end
  end.

Fixpoint dropWhile (p : ascii -> bool) (s : string) : string :=
  match s with
  | EmptyString => EmptyString
  | String c rest => if p c then dropWhile p rest else s
  end.

Fixpoint takeWhile (p : ascii -> bool) (s : string) : string :=
  match s with
  | EmptyString => EmptyString
  | String c rest => if p c then String c (takeWhile p rest) else EmptyString
  end.

(** [parseInt(s, 10)]: white space, a sign, then the longest run of decimal
    digits; [None] is [NaN]. *)
Definition parseInt (s : string) : option Z :=
  let trimmed := dropWhile isWhitespace s in
  let (sign, unsigned) :=
    match trimmed with
    | String "-" rest => (-1, rest)
    | String "+" rest => (1, rest)
    | _ => (1, trimmed)
    end in
  let numerals := takeWhile isDigit unsigned in
  if isEmpty numerals then None else Some (sign * decimalValue numerals).

(** The object that [parseOptions] fills. *)
Record CliOptions : Type := {
  cliAlgorithm : option HashAlgorithm;
  cliDigits : option Z;
  cliPeriod : option Z;
  cliWindow : option Z;
  cliIssuer : option string;
  cliAccount : option string
}.

Definition noOptions : CliOptions :=
  {| cliAlgorithm := None; cliDigits := None; cliPeriod := None;
     cliWindow := None; cliIssuer := None; cliAccount := None |}.

(** What [generateTOTP] and [verifyTOTP] read of that object. *)
Definition totpOptions (options : CliOptions) : TOTPOptions :=
  {| algorithm := cliAlgorithm options; digits := cliDigits options;
     period := cliPeriod options; timestamp := None;
     window := cliWindow options |}.

(** [parseOptions] returns the options, or prints [message] on the error
    stream and ends the process with [process.exit(1)]. *)
Inductive parsed : Type :=
| Parsed (options : CliOptions)
| Failed (message : string).

Definition algorithmOfName (value : string) : option HashAlgorithm :=
  if String.eqb value "SHA-1" then Some SHA1
  else if String.eqb value "SHA-256" then Some SHA256
  else if String.eqb value "SHA-512" then Some SHA512
  else None.

(** The body of the loop of [parseOptions]. *)
Definition parseOption (options : CliOptions) (arg : string) : parsed :=
  if startsWith arg "--" then
    match split "=" (substringFrom 2 arg) with
    | key :: value :: _ =>
        if negb (isEmpty key) && negb (isEmpty value) then
          if String.eqb key "algorithm" then
            match algorithmOfName value with
            | Some a =>
                Parsed {| cliAlgorithm := Some a;
                          cliDigits := cliDigits options;
                          cliPeriod := cliPeriod options;
                          cliWindow := cliWindow options;
                          cliIssuer := cliIssuer options;
                          cliAccount := cliAccount options |}
            | None => Failed ("Invalid algorithm: " ++ value)
            end
          else if String.eqb key "digits" then
            match parseInt value with
            | Some n =>
                if (n =? 6) || (n =? 8) then
                  Parsed {| cliAlgorithm := cliAlgorithm options;
                            cliDigits := Some n;
                            cliPeriod := cliPeriod options;
                            cliWindow := cliWindow options;
                            cliIssuer := cliIssuer options;
                            cliAccount := cliAccount options |}
                else Failed "Digits must be 6 or 8"
            | None => Failed "Digits must be 6 or 8"
            end
          else if String.eqb key "period" || String.eqb key "window" then
            match parseInt value with
            | Some n =>
                if n <=? 0 then
                  Failed ("Invalid " ++ key ++ ": must be a positive number")
                else if String.eqb key "period" then
                  Parsed {| cliAlgorithm := cliAlgorithm options;
                            cliDigits := cliDigits options;
                            cliPeriod := Some n;
                            cliWindow := cliWindow options;
                            cliIssuer := cliIssuer options;
                            cliAccount := cliAccount options |}
                else
                  Parsed {| cliAlgorithm := cliAlgorithm options;
                            cliDigits := cliDigits options;
                            cliPeriod := cliPeriod options;
                            cliWindow := Some n;
                            cliIssuer := cliIssuer options;
                            cliAccount := cliAccount options |}
            | None =>
                Failed ("Invalid " ++ key ++ ": must be a positive number")
            end
          else if String.eqb key "issuer" then
            Parsed {| cliAlgorithm := cliAlgorithm options;
                      cliDigits := cliDigits options;
                      cliPeriod := cliPeriod options;
                      cliWindow := cliWindow options;
                      cliIssuer := Some value;
                      cliAccount := cliAccount options |}
          else if String.eqb key "account" then
            Parsed {| cliAlgorithm := cliAlgorithm options;
                      cliDigits := cliDigits options;
                      cliPeriod := cliPeriod options;
                      cliWindow := cliWindow options;
                      cliIssuer := cliIssuer options;
                      cliAccount := Some value |}
          else Parsed options
        else Parsed options
    | _ => Parsed options
    end
  else Parsed options.

Fixpoint parseOptionsFrom (options : CliOptions) (args : list string)
  : parsed :=
  match args with
  | [] => Parsed options
  | arg :: rest =>
      match parseOption options arg with
      | Parsed options' => parseOptionsFrom options' rest
      | Failed message => Failed message
      end
  end.

Definition parseOptions (args : list string) : parsed :=
  parseOptionsFrom noOptions args.

Definition getNoOptionArgs (args : list string) : list string :=
  List.filter (fun arg => negb (startsWith arg "--")) args.

(** What a run of the command line shows: the texts of [console.log], those
    of [console.error], and the exit code. *)
Record CliRun : Type := {
  stdout : list string;
  stderr : list string;
  exitCode : Z
}.

Definition newline : string := String (ascii_of_nat 10) EmptyString.

(** The text of [printUsage]. *)
Definition usageText : string :=
  String.concat newline
    [ "";
      "Totpify - Advanced TOTP Generator and Verifier";
      "Usage:";
      "  totpify generate <secret> [options]";
      "  totpify verify <code> <secret> [options]";
      "  totpify qrcode <secret> [options] [output-file]";
      "  totpify create-secret [length]";
      "";
      "Options:";
      "  --algorithm=<alg>    Hash algorithm (SHA-1, SHA-256, SHA-512)";
      "  --digits=<num>       Number of digits (6, 8)";
      "  --period=<seconds>   Token validity period in seconds (default: 30)";
      "  --window=<num>       Time drift window (default: 1)";
      "  --issuer=<name>      Issuer name for QR code";
      "  --account=<name>     Account name for QR code";
      "";
      "Examples:";
      "  totpify generate JBSWY3DPEHPK3PXP";
      "  totpify verify 123456 JBSWY3DPEHPK3PXP";
      "  totpify qrcode JBSWY3DPEHPK3PXP --issuer=MyApp code.png";
      "  totpify create-secret";
      "" ]%string.

(** [!args[i]]: the argument is missing or empty. *)
Definition present (arg : option string) : option string :=
  match arg with
  | Some text => if isEmpty text then None else Some text
  | None => None
  end.

Section Cli.

Variable createHmac : HashAlgorithm -> list Z -> list Z -> list Z.
Variable now : Z.

(** The [Uint8Array] of [generateRandomSecret(length)] once the random
    source has filled it. *)
Variable randomBytes : Z -> list Z.

(** The [qrcode] command behind its argument check: [generateQRCode] and
    the file system, for a secret, an issuer, an account and an output
    file. *)
Variable qrcodeCommand : string -> string -> string -> option string -> CliRun.

Definition failure (message : string) : CliRun :=
  {| stdout := []; stderr := [message]; exitCode := 1 |}.

Definition generateCommand (noOptionArgs : list string)
           (options : CliOptions) : CliRun :=
  match present (nth_error noOptionArgs 0) with
  | None => failure "Secret is required"
  | Some secret =>
      match result (generateTOTP createHmac now (TextSecret secret)
                      (totpOptions options)) with
      | Return token => {| stdout := [token]; stderr := []; exitCode := 0 |}
      | Throw message => failure ("Error: " ++ message)
      end
  end.

Definition verifyCommand (noOptionArgs : list string)
           (options : CliOptions) : CliRun :=
  match present (nth_error noOptionArgs 0),
        present (nth_error noOptionArgs 1) with
  | Some code, Some secret =>
      match result (verifyTOTP createHmac now code (TextSecret secret)
                      (totpOptions options)) with
      | Return r =>
          if valid r then
            {| stdout :=
                 [("Valid (time drift: " ++ toString (default 0 (delta r))
                   ++ " periods)")%string];
               stderr := []; exitCode := 0 |}
          else {| stdout := ["Invalid code"%string]; stderr := [];
                  exitCode := 1 |}
      | Throw message => failure ("Error: " ++ message)
      end
  | _, _ => failure "Code and secret are required"
  end.

Definition qrcodeArguments (noOptionArgs : list string)
           (options : CliOptions) : CliRun :=
  match present (nth_error noOptionArgs 0) with
  | None => failure "Secret is required"
  | Some secret =>
      qrcodeCommand secret
        (default "Totpify"%string (cliIssuer options))
        (default "user"%string (cliAccount options))
        (present (nth_error noOptionArgs 1))
  end.

Definition createSecretCommand (noOptionArgs : list string) : CliRun :=
  let length :=
    match present (nth_error noOptionArgs 0) with
    | Some text => parseInt text
    | None => Some 20
    end in
  match length with
  | Some n =>
      if n <=? 0 then failure "Length must be a positive number"
      else {| stdout := [generateRandomSecret (randomBytes n)];
              stderr := []; exitCode := 0 |}
  | None => failure "Length must be a positive number"
  end.

(** [main] for the arguments [args] behind the name of the program. *)
Definition main (args : list string) : CliRun :=
  match present (nth_error args 0) with
  | None => {| stdout := [usageText]; stderr := []; exitCode := 0 |}
  | Some command =>
      if String.eqb command "help" || String.eqb command "--help" then
        {| stdout := [usageText]; stderr := []; exitCode := 0 |}
      else
        let noOptionArgs := getNoOptionArgs (tl args) in
        match parseOptions (tl args) with
        | Failed message => failure message
        | Parsed options =>
            if String.eqb command "generate" then
              generateCommand noOptionArgs options
            else if String.eqb command "verify" then
              verifyCommand noOptionArgs options
            else if String.eqb command "qrcode" then
              qrcodeArguments noOptionArgs options
            else if String.eqb command "create-secret" then
              createSecretCommand noOptionArgs
            else
              {| stdout := [usageText];
                 stderr := [("Unknown command: " ++ command)%string];
                 exitCode := 1 |}
        end
  end.

End Cli.

(** A random source for the examples: every byte is 7. *)
Definition sevens (n : Z) : list Z := repeat 7 (Z.to_nat n).

(** A [qrcode] command for the examples: it prints nothing. *)
Definition silentQrcode (secret issuer account : string)
           (outputFile : option string) : CliRun :=
  {| stdout := []; stderr := []; exitCode := 0 |}.

(** * Properties *)

(** ** The 32-bit operators on the values the engine applies them to *)

Module JSFacts.
Import JS.

Lemma toUint32_range x : 0 <= toUint32 x < 2 ^ 32.
Proof. unfold toUint32. apply Z.mod_pos_bound. lia. Qed.

Lemma toInt32_small x : 0 <= x < 2 ^ 31 -> toInt32 x = x.
Proof.
  intros H. unfold toInt32, toUint32.
  rewrite Z.mod_small by lia.
  destruct (Z.ltb_spec x (2 ^ 31)); lia.
Qed.

Lemma toInt32_congr x : exists m, toInt32 x = x + m * 2 ^ 32.
Proof.
  unfold toInt32, toUint32.
  pose proof (Z.div_mod x (2 ^ 32) ltac:(lia)) as E.
  destruct (Z.ltb_spec (x mod 2 ^ 32) (2 ^ 31)).
  - exists (- (x / 2 ^ 32)). lia.
  - exists (- (x / 2 ^ 32) - 1). lia.
Qed.

Lemma toInt32_mod_pow2 x k : 0 <= k <= 32 -> toInt32 x mod 2 ^ k = x mod 2 ^ k.
Proof.
  intros Hk. destruct (toInt32_congr x) as [m ->].
  replace (2 ^ 32) with (2 ^ (32 - k) * 2 ^ k).
  - rewrite Z.mul_assoc. apply Z_mod_plus_full.
  - rewrite <- Z.pow_add_r by lia. f_equal. lia.
Qed.

(** [x & (2^k - 1)] keeps the low [k] bits. *)
Lemma and_ones x k : 0 <= k < 32 -> and x (2 ^ k - 1) = x mod 2 ^ k.
Proof.
  intros Hk. unfold and.
  assert (0 < 2 ^ k <= 2 ^ 31).
  { split; [apply Z.pow_pos_nonneg; lia | apply Z.pow_le_mono_r; lia]. }
  rewrite (toInt32_small (2 ^ k - 1)) by lia.
  replace (2 ^ k - 1) with (Z.ones k) by (rewrite Z.ones_equiv; lia).
  rewrite Z.land_ones by lia.
  apply toInt32_mod_pow2. lia.
Qed.

Lemma and_255 x : and x 255 = x mod 256.
Proof. exact (and_ones x 8 ltac:(lia)). Qed.

Lemma and_127 x : and x 127 = x mod 128.
Proof. exact (and_ones x 7 ltac:(lia)). Qed.

Lemma and_15 x : and x 15 = x mod 16.
Proof. exact (and_ones x 4 ltac:(lia)). Qed.

Lemma ushr_8 x : ushr x 8 = (x mod 2 ^ 32) / 256.
Proof.
  unfold ushr, toUint32.
  change (8 mod 2 ^ 32 mod 32) with 8. now rewrite Z.shiftr_div_pow2 by lia.
Qed.

(** [v << k] does not overflow when [v * 2^k] fits in 31 bits. *)
Lemma shl_small v k :
  0 <= k < 32 -> 0 <= v -> v * 2 ^ k < 2 ^ 31 -> shl v k = v * 2 ^ k.
Proof.
  intros Hk Hv Hb. unfold shl, toUint32.
  assert (0 < 2 ^ k) by (apply Z.pow_pos_nonneg; lia).
  rewrite (Z.mod_small k) by lia.
  rewrite (Z.mod_small k 32) by lia.
  rewrite (toInt32_small v) by nia.
  rewrite Z.shiftl_mul_pow2 by lia.
  apply toInt32_small. nia.
Qed.

Lemma lor_disjoint a b k :
  0 <= k -> 0 <= b < 2 ^ k -> Z.lor (a * 2 ^ k) b = a * 2 ^ k + b.
Proof.
  intros Hk Hb.
  assert (D : Z.land (a * 2 ^ k) b = 0).
  { apply Z.bits_inj'. intros n Hn. rewrite Z.land_spec, Z.bits_0.
    destruct (Z.lt_ge_cases n k).
    - rewrite Z.mul_pow2_bits_low by lia. reflexivity.
    - rewrite <- (Z.mod_small b (2 ^ k)) by lia.
      rewrite Z.mod_pow2_bits_high by lia. apply andb_false_r. }
  rewrite <- Z.lxor_lor by exact D.
  symmetry. apply Z.add_nocarry_lxor. exact D.
Qed.

(** [hi | lo] where [hi] is a multiple of [2^k] and [lo] is below it. *)
Lemma or_disjoint a b k :
  0 <= k -> 0 <= a -> 0 <= b < 2 ^ k -> a * 2 ^ k + b < 2 ^ 31 ->
  or (a * 2 ^ k) b = a * 2 ^ k + b.
Proof.
  intros Hk Ha Hb Hlt. unfold or.
  assert (0 < 2 ^ k) by (apply Z.pow_pos_nonneg; lia).
  rewrite (toInt32_small (a * 2 ^ k)) by nia.
  rewrite (toInt32_small b) by nia.
  now apply lor_disjoint.
Qed.

End JSFacts.

(** ** The counter buffer *)

Section CounterBuffer.
Import JS JSFacts.

Lemma counterBuffer_unfold c :
  counterBuffer c =
  let t1 := ushr c 8 in let t2 := ushr t1 8 in let t3 := ushr t2 8 in
  let t4 := ushr t3 8 in let t5 := ushr t4 8 in let t6 := ushr t5 8 in
  let t7 := ushr t6 8 in
  [and t7 255; and t6 255; and t5 255; and t4 255;
   and t3 255; and t2 255; and t1 255; and c 255].
Proof. reflexivity. Qed.

(** The loop keeps the low 32 bits of the counter only: the four most
    significant bytes of the buffer are always 0. *)
Lemma counterBuffer_low32 c :
  let m := c mod 2 ^ 32 in
  counterBuffer c =
  [0; 0; 0; 0; (m / 2 ^ 24) mod 256; (m / 2 ^ 16) mod 256;
   (m / 2 ^ 8) mod 256; m mod 256].
Proof.
  intros m. rewrite counterBuffer_unfold. cbv zeta.
  rewrite !and_255, !ushr_8. fold m.
  assert (Hm : 0 <= m < 2 ^ 32) by (apply Z.mod_pos_bound; lia).
  assert (E0 : c mod 256 = m mod 256).
  { unfold m. symmetry. apply Z.mod_mod_divide. now exists (2 ^ 24). }
  rewrite E0.
  clearbody m.
  repeat apply (f_equal2 (@cons Z)); try reflexivity;
    Z.div_mod_to_equations; lia.
Qed.

Lemma bigEndian8_unfold c :
  bigEndian8 c =
  [(c / 2 ^ 56) mod 256; (c / 2 ^ 48) mod 256; (c / 2 ^ 40) mod 256;
   (c / 2 ^ 32) mod 256; (c / 2 ^ 24) mod 256; (c / 2 ^ 16) mod 256;
   (c / 2 ^ 8) mod 256; c mod 256].
Proof.
  unfold bigEndian8. cbn [map seq]. 
  repeat apply (f_equal2 (@cons Z)); try reflexivity.
  now rewrite Z.div_1_r.
Qed.

(** Below 2^32 the buffer is the big-endian serialisation. *)
Lemma counterBuffer_below_2_32 c :
  0 <= c < 2 ^ 32 -> counterBuffer c = bigEndian8 c.
Proof.
  intros Hc. rewrite counterBuffer_low32, bigEndian8_unfold. cbv zeta.
  rewrite (Z.mod_small c (2 ^ 32)) by lia.
  repeat apply (f_equal2 (@cons Z)); try reflexivity;
    Z.div_mod_to_equations; lia.
Qed.

Lemma counterBuffer_wraps c : counterBuffer c = bigEndian8 (c mod 2 ^ 32).
Proof.
  rewrite <- counterBuffer_below_2_32 by (apply Z.mod_pos_bound; lia).
  rewrite !counterBuffer_low32. cbv zeta.
  now rewrite Z.mod_mod by lia.
Qed.

(** [C2] The claim that the whole range of 64-bit counters is written
    big-endian into the buffer fails on the code: at counter 2^32 the
    buffer of [generateHOTP] is all zeros, where the serialisation has a 1
    in byte 3.  The bitwise operators of the loop work on 32 bits. *)
Theorem C2_counter_2_32_serialised_as_zero :
  counterBuffer 4294967296 = [0; 0; 0; 0; 0; 0; 0; 0]
  /\ bigEndian8 4294967296 = [0; 0; 0; 1; 0; 0; 0; 0]
  /\ 0 <= 4294967296 < 2 ^ 64.
Proof. repeat split; reflexivity || lia. Qed.

End CounterBuffer.

(** ** Decimal text *)

Section Decimal.

Lemma strlen_String c s : strlen (String c s) = 1 + strlen s.
Proof. unfold strlen. cbn [String.length]. lia. Qed.

Lemma strlen_nonneg s : 0 <= strlen s.
Proof. unfold strlen. lia. Qed.

Lemma strlen_append s1 s2 :
  strlen (s1 ++ s2)%string = strlen s1 + strlen s2.
Proof.
  induction s1 as [| c s1 IH]; cbn [String.append].
  - reflexivity.
  - rewrite !strlen_String, IH. lia.
Qed.

Lemma allChars_append p s1 s2 :
  allChars p (s1 ++ s2)%string = allChars p s1 && allChars p s2.
Proof.
  induction s1 as [| c s1 IH]; cbn [String.append allChars].
  - reflexivity.
  - now rewrite IH, andb_assoc.
Qed.

Lemma decimalValueFrom_acc s : forall acc,
  decimalValueFrom acc s = acc * 10 ^ strlen s + decimalValue s.
Proof.
  unfold decimalValue.
  induction s as [| c s IH]; intros acc; cbn [decimalValueFrom].
  - change (strlen "") with 0. lia.
  - rewrite (IH (acc * 10 + _)), (IH (0 * 10 + _)), strlen_String.
    rewrite Z.pow_add_r by (pose proof (strlen_nonneg s); lia).
    ring.
Qed.

Lemma decimalValue_String c s :
  decimalValue (String c s) = (code c - 48) * 10 ^ strlen s + decimalValue s.
Proof.
  unfold decimalValue at 1. cbn [decimalValueFrom].
  rewrite decimalValueFrom_acc.
  now replace (0 * 10 + (code c - 48)) with (code c - 48) by lia.
Qed.

Lemma digitChar_spec d :
  0 <= d <= 9 -> isDigit (digitChar d) = true /\ code (digitChar d) - 48 = d.
Proof.
  intros H.
  assert (C : d = 0 \/ d = 1 \/ d = 2 \/ d = 3 \/ d = 4 \/ d = 5 \/ d = 6
              \/ d = 7 \/ d = 8 \/ d = 9) by lia.
  repeat (destruct C as [-> | C]; [split; reflexivity |]).
  subst d. split; reflexivity.
Qed.

Lemma toDecimal_S fuel n acc :
  toDecimal (S fuel) n acc =
  if n <? 10 then String (digitChar (n mod 10)) acc
  else toDecimal fuel (n / 10) (String (digitChar (n mod 10)) acc).
Proof. reflexivity. Qed.

(** What the digit loop of [toString] adds in front of [acc]. *)
Lemma toDecimal_spec fuel : forall n acc,
  0 <= n < 2 ^ Z.of_nat (S fuel) ->
  let r := toDecimal (S fuel) n acc in
  (allChars isDigit acc = true -> allChars isDigit r = true)
  /\ decimalValue r = n * 10 ^ strlen acc + decimalValue acc
  /\ strlen acc < strlen r
  /\ (forall d, 1 <= d -> n < 10 ^ d -> strlen r <= d + strlen acc).
Proof.
  induction fuel as [| fuel IH]; intros n acc Hn r; subst r.
  - change (2 ^ Z.of_nat 1) with 2 in Hn.
    rewrite toDecimal_S. destruct (Z.ltb_spec n 10); [| lia].
    rewrite (Z.mod_small n 10) by lia.
    destruct (digitChar_spec n ltac:(lia)) as [Hd Hc].
    cbn [allChars]. rewrite Hd, decimalValue_String, Hc, strlen_String.
    repeat split; try lia. auto.
  - rewrite toDecimal_S. destruct (Z.ltb_spec n 10) as [Hlt | Hge].
    + rewrite (Z.mod_small n 10) by lia.
      destruct (digitChar_spec n ltac:(lia)) as [Hd Hc].
      cbn [allChars]. rewrite Hd, decimalValue_String, Hc, strlen_String.
      repeat split; try lia. auto.
    + assert (Hpow : 2 ^ Z.of_nat (S (S fuel)) = 2 * 2 ^ Z.of_nat (S fuel)).
      { rewrite (Nat2Z.inj_succ (S fuel)), Z.pow_succ_r by lia. reflexivity. }
      assert (Hq : 0 <= n / 10 < 2 ^ Z.of_nat (S fuel)).
      { split; [apply Z.div_pos; lia |].
        apply Z.div_lt_upper_bound; lia. }
      specialize (IH (n / 10) (String (digitChar (n mod 10)) acc) Hq).
      cbv zeta in IH. destruct IH as (Ha & Hv & Hl & Hd).
      assert (Hr : 0 <= n mod 10 <= 9)
        by (pose proof (Z.mod_pos_bound n 10); lia).
      destruct (digitChar_spec (n mod 10) Hr) as [Hdig Hc].
      rewrite decimalValue_String, Hc, strlen_String in *.
      pose proof (strlen_nonneg acc) as Hacc.
      repeat split.
      * intros Hacc'. apply Ha. cbn [allChars]. now rewrite Hdig, Hacc'.
      * rewrite Hv, Z.pow_add_r by lia.
        rewrite (Z.div_mod n 10) at 3 by lia. ring.
      * lia.
      * intros d Hd1 Hnd.
        assert (Hd2 : 2 <= d).
        { destruct (Z.le_gt_cases 2 d); [assumption |].
          assert (d = 1) by lia. subst d. change (10 ^ 1) with 10 in Hnd. lia. }
        assert (n / 10 < 10 ^ (d - 1)).
        { apply Z.div_lt_upper_bound; [lia |].
          rewrite <- Z.pow_succ_r by lia. now replace (Z.succ (d - 1)) with d by lia. }
        specialize (Hd (d - 1) ltac:(lia) ltac:(assumption)). lia.
Qed.

Lemma toString_spec n :
  0 <= n ->
  allChars isDigit (toString n) = true
  /\ decimalValue (toString n) = n
  /\ 1 <= strlen (toString n)
  /\ (forall d, 1 <= d -> n < 10 ^ d -> strlen (toString n) <= d).
Proof.
  intros Hn. unfold toString.
  destruct (Z.ltb_spec n 0); [lia |].
  assert (Hb : 0 <= n < 2 ^ Z.of_nat (S (Z.to_nat (Z.log2 n)))).
  { rewrite Nat2Z.inj_succ, Z2Nat.id by apply Z.log2_nonneg.
    destruct (Z.eq_dec n 0) as [-> | Hne]; [cbn; lia |].
    pose proof (Z.log2_spec n ltac:(lia)). lia. }
  destruct (toDecimal_spec _ n "" Hb) as (Ha & Hv & Hl & Hd).
  change (strlen "") with 0 in *. change (decimalValue "") with 0 in Hv.
  repeat split.
  - now apply Ha.
  - rewrite Hv. change (10 ^ 0) with 1. lia.
  - lia.
  - intros d H1 H2. specialize (Hd d H1 H2). lia.
Qed.

Lemma repeatChar_zero_spec k :
  allChars isDigit (repeatChar k "0") = true
  /\ strlen (repeatChar k "0") = Z.of_nat k
  /\ forall s, decimalValue (repeatChar k "0" ++ s)%string = decimalValue s.
Proof.
  induction k as [| k (Ha & Hl & Hv)]; cbn [repeatChar].
  - repeat split.
  - repeat split.
    + cbn [allChars]. now rewrite Ha.
    + rewrite strlen_String, Hl. lia.
    + intros s. cbn [String.append]. rewrite decimalValue_String, Hv.
      change (code "0" - 48) with 0. lia.
Qed.

(** [n.toString().padStart(d, '0')] for [0 <= n < 10^d]: the [d] decimal
    digits of [n]. *)
Lemma padded_decimal n d :
  1 <= d -> 0 <= n < 10 ^ d ->
  let s := padStart (toString n) d "0" in
  strlen s = d /\ allChars isDigit s = true /\ decimalValue s = n.
Proof.
  intros Hd Hn s. subst s. unfold padStart.
  destruct (toString_spec n ltac:(lia)) as (Ha & Hv & Hl1 & Hl).
  specialize (Hl d Hd ltac:(lia)).
  destruct (repeatChar_zero_spec (Z.to_nat (d - strlen (toString n))))
    as (Hza & Hzl & Hzv).
  rewrite strlen_append, allChars_append, Hza, Ha, Hzl, Hzv, Hv.
  repeat split. lia.
Qed.

End Decimal.

(** ** Dynamic truncation and the code text *)

Section Truncation.
Import JS JSFacts.

(** The bitwise expression of [generateHOTP] computes the RFC 4226
    truncation, a number below 2^31. *)
Lemma truncate_spec digest :
  truncate digest = dynamicTruncation digest
  /\ 0 <= dynamicTruncation digest < 2 ^ 31.
Proof.
  unfold truncate, dynamicTruncation. cbv zeta.
  rewrite and_15, and_127, !and_255.
  set (o := at_ digest (Z.of_nat (length digest) - 1) mod 16).
  set (a := at_ digest o mod 128).
  set (b := at_ digest (o + 1) mod 256).
  set (c := at_ digest (o + 2) mod 256).
  set (d := at_ digest (o + 3) mod 256).
  assert (Ha : 0 <= a < 128) by (apply Z.mod_pos_bound; lia).
  assert (Hb : 0 <= b < 256) by (apply Z.mod_pos_bound; lia).
  assert (Hc : 0 <= c < 256) by (apply Z.mod_pos_bound; lia).
  assert (Hd : 0 <= d < 256) by (apply Z.mod_pos_bound; lia).
  rewrite (shl_small a 24), (shl_small b 16), (shl_small c 8) by lia.
  rewrite (or_disjoint a (b * 2 ^ 16) 24) by lia.
  replace (a * 2 ^ 24 + b * 2 ^ 16) with ((a * 2 ^ 8 + b) * 2 ^ 16) by ring.
  rewrite (or_disjoint (a * 2 ^ 8 + b) (c * 2 ^ 8) 16) by lia.
  replace ((a * 2 ^ 8 + b) * 2 ^ 16 + c * 2 ^ 8)
    with ((a * 2 ^ 16 + b * 2 ^ 8 + c) * 2 ^ 8) by ring.
  rewrite (or_disjoint (a * 2 ^ 16 + b * 2 ^ 8 + c) d 8) by lia.
  split; [ring | lia].
Qed.

End Truncation.

Section HOTP.
Variable createHmac : HashAlgorithm -> list Z -> list Z -> list Z.

Lemma generateHOTP_unfold key counter algorithm digits :
  generateHOTP createHmac key counter algorithm digits =
  (Return
     (padStart
        (toString
           (Z.rem (truncate (createHmac algorithm key (counterBuffer counter)))
                  (10 ^ digits)))
        digits "0"),
   [(algorithm, key, counterBuffer counter)]).
Proof. reflexivity. Qed.

(** The code text of [generateHOTP]: [digits] decimal digits that denote
    the truncated digest modulo [10^digits]. *)
Lemma generateHOTP_code_text key counter algorithm digits :
  1 <= digits ->
  exists codeText,
    generateHOTP createHmac key counter algorithm digits
    = (Return codeText, [(algorithm, key, counterBuffer counter)])
    /\ strlen codeText = digits
    /\ allChars isDigit codeText = true
    /\ decimalValue codeText
       = dynamicTruncation (createHmac algorithm key (counterBuffer counter))
         mod 10 ^ digits.
Proof.
  intros Hd. rewrite generateHOTP_unfold.
  destruct (truncate_spec (createHmac algorithm key (counterBuffer counter)))
    as [Et Hb].
  rewrite Et.
  assert (Hp : 0 < 10 ^ digits) by (apply Z.pow_pos_nonneg; lia).
  rewrite Z.rem_mod_nonneg by lia.
  eexists. split; [reflexivity |].
  apply padded_decimal; [exact Hd |].
  apply Z.mod_pos_bound. exact Hp.
Qed.

(** [C1] [generateHOTP] derives the code by dynamic truncation: with
    [offset] the low nibble of the last byte of the digest and [binary]
    the four bytes from [offset] read big-endian without the top bit,
    [binary] is below 2^31 and the code is the text of exactly [digits]
    decimal digits that denotes [binary mod 10^digits]. *)
Theorem C1_generateHOTP_dynamic_truncation key counter algorithm digits :
  1 <= digits ->
  let digest := createHmac algorithm key (counterBuffer counter) in
  let binary := dynamicTruncation digest in
  0 <= binary < 2 ^ 31
  /\ exists codeText,
       result (generateHOTP createHmac key counter algorithm digits)
       = Return codeText
       /\ strlen codeText = digits
       /\ allChars isDigit codeText = true
       /\ decimalValue codeText = binary mod 10 ^ digits.
Proof.
  intros Hd digest binary.
  destruct (truncate_spec digest) as [Et Hb]. fold binary in Et, Hb.
  split; [exact Hb |].
  rewrite generateHOTP_unfold. cbn [result fst]. fold digest. rewrite Et.
  assert (Hp : 0 < 10 ^ digits) by (apply Z.pow_pos_nonneg; lia).
  rewrite Z.rem_mod_nonneg by lia.
  eexists. split; [reflexivity |].
  apply padded_decimal; [exact Hd |].
  apply Z.mod_pos_bound. exact Hp.
Qed.

End HOTP.

Lemma C1_witness :
  1 <= 6
  /\ (let digest :=
        Crypto.hmac SHA1 [72; 101; 108; 108; 111; 33; 222; 173; 190; 239]
                    (counterBuffer 54500000) in
      let binary := dynamicTruncation digest in
      0 <= binary < 2 ^ 31
      /\ exists codeText,
           result (generateHOTP Crypto.hmac
                     [72; 101; 108; 108; 111; 33; 222; 173; 190; 239]
                     54500000 SHA1 6)
           = Return codeText
           /\ strlen codeText = 6
           /\ allChars isDigit codeText = true
           /\ decimalValue codeText = binary mod 10 ^ 6).
Proof.
  split; [lia | apply C1_generateHOTP_dynamic_truncation; lia].
Defined.
(** ** Base32 *)

Section Base32.
Import JS JSFacts.

Lemma allChars_true p s :
  allChars p s = true <-> forall c, occursIn c s -> p c = true.
Proof.
  induction s as [| d s IH]; cbn [allChars occursIn].
  - split; [intros _ c [] | reflexivity].
  - rewrite andb_true_iff, IH. split.
    + intros [Hd Hs] c [<- | Hc]; auto.
    + intros H. split; [apply H; now left | intros c Hc; apply H; now right].
Qed.

Lemma allChars_false p s :
  allChars p s = false <-> exists c, occursIn c s /\ p c = false.
Proof.
  induction s as [| d s IH]; cbn [allChars occursIn].
  - split; [discriminate | intros (c & [] & _)].
  - rewrite andb_false_iff, IH. split.
    + intros [Hd | (c & Hc & Hp)]; [exists d | exists c]; auto.
    + intros (c & [<- | Hc] & Hp); [now left | right; now exists c].
Qed.

Lemma isEmpty_true s : isEmpty s = true <-> s = EmptyString.
Proof. destruct s; cbn; split; congruence. Qed.

Lemma strlen_zero s : (strlen s =? 0) = isEmpty s.
Proof.
  destruct s as [| c s]; [reflexivity |].
  rewrite strlen_String. cbn [isEmpty].
  pose proof (strlen_nonneg s). apply Z.eqb_neq. lia.
Qed.

(** The symbols of the alphabet have the indices 0 to 31. *)
Lemma indexOf_alphabet c :
  isBase32Char c = true -> 0 <= indexOf alphabet c < 32.
Proof.
  destruct c as [[] [] [] [] [] [] [] []]; vm_compute;
    intros H; try discriminate H; split; congruence.
Qed.

(** [(value << 5) | index] appends five bits, modulo 2^32. *)
Lemma append_symbol value V x :
  value mod 2 ^ 32 = V mod 2 ^ 32 -> 0 <= x < 32 ->
  or (shl value 5) x mod 2 ^ 32 = (V * 32 + x) mod 2 ^ 32.
Proof.
  intros Hv Hx. unfold or, shl, toUint32.
  change (5 mod 2 ^ 32 mod 32) with 5.
  rewrite Z.shiftl_mul_pow2 by lia.
  rewrite (toInt32_small x) by lia.
  destruct (toInt32_congr value) as [m1 E1].
  destruct (toInt32_congr (toInt32 value * 2 ^ 5)) as [m2 E2].
  destruct (toInt32_congr (toInt32 (toInt32 value * 2 ^ 5))) as [m3 E3].
  rewrite E3, E2.
  replace (toInt32 value * 2 ^ 5 + m2 * 2 ^ 32 + m3 * 2 ^ 32)
    with ((toInt32 value + (m2 + m3) * 2 ^ 27) * 2 ^ 5) by ring.
  rewrite lor_disjoint by lia.
  rewrite E1.
  replace ((value + m1 * 2 ^ 32 + (m2 + m3) * 2 ^ 27) * 2 ^ 5 + x)
    with (value * 32 + x + (32 * m1 + m2 + m3) * 2 ^ 32) by ring.
  rewrite Z_mod_plus_full.
  rewrite <- (Zplus_mod_idemp_l (value * 32)), <- (Zplus_mod_idemp_l (V * 32)).
  rewrite <- (Zmult_mod_idemp_l value), <- (Zmult_mod_idemp_l V), Hv.
  reflexivity.
Qed.

(** [(value >>> n) & 0xff] reads eight bits that lie within the low 32. *)
Lemma extract_byte value V n :
  value mod 2 ^ 32 = V mod 2 ^ 32 -> 0 <= n <= 24 ->
  and (ushr value n) 255 = (V / 2 ^ n) mod 256.
Proof.
  intros Hv Hn. rewrite and_255. unfold ushr, toUint32.
  rewrite (Z.mod_small n (2 ^ 32)) by lia.
  rewrite (Z.mod_small n 32) by lia.
  rewrite Z.shiftr_div_pow2, Hv by lia.
  assert (Hp : 0 < 2 ^ n) by (apply Z.pow_pos_nonneg; lia).
  replace (2 ^ 32) with (2 ^ n * (256 * 2 ^ (24 - n))).
  2:{ change 256 with (2 ^ 8). rewrite <- !Z.pow_add_r by lia. f_equal. lia. }
  assert (Hq : 0 < 2 ^ (24 - n)) by (apply Z.pow_pos_nonneg; lia).
  rewrite Z.rem_mul_r by lia.
  rewrite (Z.mul_comm (2 ^ n)), Z.div_add by lia.
  rewrite (Z.div_small (V mod 2 ^ n)) by (apply Z.mod_pos_bound; lia).
  rewrite Z.add_0_l.
  rewrite Z.rem_mul_r by lia.
  rewrite (Z.mul_comm 256), Z_mod_plus_full. apply Z.mod_mod. lia.
Qed.

End Base32.
Section Base32Loop.
Import JS JSFacts.

Lemma decodeLoop_String c rest bits value result :
  decodeLoop (String c rest) bits value result =
  let value' := or (shl value 5) (indexOf alphabet c) in
  if 8 <=? bits + 5
  then decodeLoop rest (bits + 5 - 8) value'
         (result ++ [and (ushr value' (bits + 5 - 8)) 255])
  else decodeLoop rest (bits + 5) value' result.
Proof. reflexivity. Qed.

Lemma be_bytes_S n x :
  Crypto.be_bytes (S n) x = Crypto.be_bytes n (x / 256) ++ [x mod 256].
Proof. reflexivity. Qed.

(** The loop after [k] symbols: [bits] bits of the stream [V] wait in
    [value], the bytes before them are in [result]. *)
Lemma decodeLoop_spec key : forall k bits value V result,
  0 <= k ->
  bits = (5 * k) mod 8 ->
  value mod 2 ^ 32 = V mod 2 ^ 32 ->
  result = Crypto.be_bytes (Z.to_nat (5 * k / 8)) (V / 2 ^ bits) ->
  allChars isBase32Char key = true ->
  decodeLoop key bits value result =
  Crypto.be_bytes (Z.to_nat (5 * (k + strlen key) / 8))
    (bitStreamFrom V key / 2 ^ ((5 * (k + strlen key)) mod 8)).
Proof.
  induction key as [| c rest IH]; intros k bits value V result Hk Hb Hv Hr Hall.
  - cbn [decodeLoop bitStreamFrom]. change (strlen "") with 0.
    rewrite Z.add_0_r, <- Hb. exact Hr.
  - cbn [allChars] in Hall. apply andb_true_iff in Hall as [Hc Hall].
    pose proof (indexOf_alphabet c Hc) as Hx.
    set (x := indexOf alphabet c) in *.
    rewrite decodeLoop_String. cbv zeta. fold x.
    cbn [bitStreamFrom]. fold x. rewrite strlen_String.
    replace (k + (1 + strlen rest)) with ((k + 1) + strlen rest) by ring.
    pose proof (append_symbol value V x Hv Hx) as Hv'.
    assert (Hbits : 0 <= bits < 8) by (subst bits; apply Z.mod_pos_bound; lia).
    assert (Hshift : forall n, 0 <= n -> (V * 32 + x) / 2 ^ (n + 5) = V / 2 ^ n).
    { intros n Hn.
      assert (0 < 2 ^ n) by (apply Z.pow_pos_nonneg; lia).
      replace (2 ^ (n + 5)) with (32 * 2 ^ n)
        by (rewrite Z.pow_add_r by lia; change (2 ^ 5) with 32; ring).
      rewrite <- Z.div_div, Z.div_add_l, (Z.div_small x) by lia.
      now rewrite Z.add_0_r. }
    destruct (Z.leb_spec 8 (bits + 5)) as [Hge | Hlt].
    + apply IH; [lia | | exact Hv' | | exact Hall].
      * subst bits. Z.div_mod_to_equations. lia.
      * rewrite (extract_byte _ (V * 32 + x)) by (exact Hv' || lia).
        replace (Z.to_nat (5 * (k + 1) / 8)) with (S (Z.to_nat (5 * k / 8))).
        2:{ subst bits. rewrite <- Z2Nat.inj_succ by (apply Z.div_pos; lia).
            f_equal. Z.div_mod_to_equations. lia. }
        rewrite be_bytes_S, Hr. do 2 f_equal.
        change 256 with (2 ^ 8).
        rewrite Z.div_div by (try apply Z.pow_pos_nonneg; lia).
        rewrite <- Z.pow_add_r by lia.
        replace (bits + 5 - 8 + 8) with (bits + 5) by ring.
        symmetry. apply Hshift. lia.
    + apply IH; [lia | | exact Hv' | | exact Hall].
      * subst bits. Z.div_mod_to_equations. lia.
      * replace (5 * (k + 1) / 8) with (5 * k / 8)
          by (subst bits; Z.div_mod_to_equations; lia).
        rewrite Hr. f_equal. symmetry. apply Hshift. lia.
Qed.

(** On a text of symbols of the alphabet the loop yields the whole bytes
    of its bit stream. *)
Lemma decodeLoop_wholeBytes key :
  allChars isBase32Char key = true ->
  decodeLoop key 0 0 [] = wholeBytes key.
Proof.
  intros Hall. unfold wholeBytes, bitStream.
  rewrite (decodeLoop_spec key 0 0 0 0 []); try reflexivity; try lia; auto.
Qed.

Lemma be_bytes_length n : forall x, length (Crypto.be_bytes n x) = n.
Proof.
  induction n as [| n IH]; intros x; [reflexivity |].
  rewrite be_bytes_S, length_app, IH. cbn. lia.
Qed.

Lemma be_bytes_range n : forall x b,
  In b (Crypto.be_bytes n x) -> 0 <= b < 256.
Proof.
  induction n as [| n IH]; intros x b; [intros [] |].
  rewrite be_bytes_S, in_app_iff. intros [H | [<- | []]].
  - eapply IH, H.
  - apply Z.mod_pos_bound. lia.
Qed.

End Base32Loop.
Section Base32Text.

Lemma isBase32Char_alphabet c :
  isBase32Char c = true <-> indexOf alphabet c <> -1.
Proof.
  destruct c as [[] [] [] [] [] [] [] []]; vm_compute; split; congruence.
Qed.

Lemma decodeBase32_cases base32 :
  decodeBase32 base32 =
  let key := normalizedKey base32 in
  if isEmpty key then Throw EmptySecret
  else if allChars isBase32Char key then Return (wholeBytes key)
       else Throw InvalidCharacter.
Proof.
  unfold decodeBase32. cbv zeta. rewrite strlen_zero. unfold testBase32.
  destruct (isEmpty (normalizedKey base32)); [reflexivity |].
  cbn [negb andb].
  destruct (allChars isBase32Char (normalizedKey base32)) eqn:Hall;
    cbn [negb]; [| reflexivity].
  now rewrite (decodeLoop_wholeBytes _ Hall).
Qed.



End Base32Text.
Section Normalization.

Lemma isWhitespace_upperChar c : isWhitespace (upperChar c) = isWhitespace c.
Proof. destruct c as [[] [] [] [] [] [] [] []]; reflexivity. Qed.

Lemma upperChar_idempotent c : upperChar (upperChar c) = upperChar c.
Proof. destruct c as [[] [] [] [] [] [] [] []]; reflexivity. Qed.

Lemma toUpperCase_idempotent s : toUpperCase (toUpperCase s) = toUpperCase s.
Proof.
  unfold toUpperCase. induction s as [| c s IH]; cbn [mapChars].
  - reflexivity.
  - now rewrite upperChar_idempotent, IH.
Qed.

Lemma removeChars_idempotent p s :
  removeChars p (removeChars p s) = removeChars p s.
Proof.
  induction s as [| c s IH]; cbn [removeChars]; [reflexivity |].
  destruct (p c) eqn:Hp; [exact IH |].
  cbn [removeChars]. now rewrite Hp, IH.
Qed.

(** Removing white space and upper-casing commute. *)
Lemma normalizeSecret_commute s :
  normalizeSecret s = removeChars isWhitespace (toUpperCase s).
Proof.
  unfold normalizeSecret, toUpperCase.
  induction s as [| c s IH]; cbn [mapChars removeChars]; [reflexivity |].
  rewrite isWhitespace_upperChar.
  destruct (isWhitespace c); cbn [mapChars]; now rewrite IH.
Qed.

(** A text without white space and lower-case letters is its own
    normal form. *)
Lemma normalizeSecret_fixed s :
  (forall c, occursIn c s -> isWhitespace c = false /\ upperChar c = c) ->
  normalizeSecret s = s.
Proof.
  unfold normalizeSecret, toUpperCase.
  induction s as [| c s IH]; intros H; cbn [removeChars mapChars];
    [reflexivity |].
  destruct (H c) as [Hw Hu]; [now left |].
  rewrite Hw. cbn [mapChars]. rewrite Hu, IH; [reflexivity |].
  intros d Hd. apply H. now right.
Qed.

Lemma normalizeSecret_chars s c :
  occursIn c (normalizeSecret s) -> isWhitespace c = false /\ upperChar c = c.
Proof.
  unfold normalizeSecret, toUpperCase.
  induction s as [| d s IH]; cbn [removeChars mapChars occursIn]; [tauto |].
  destruct (isWhitespace d) eqn:Hw; [exact IH |].
  cbn [mapChars occursIn]. intros [<- | Hc]; [| auto].
  now rewrite isWhitespace_upperChar, upperChar_idempotent.
Qed.

Lemma normalizeSecret_idempotent s :
  normalizeSecret (normalizeSecret s) = normalizeSecret s.
Proof. apply normalizeSecret_fixed, normalizeSecret_chars. Qed.

Lemma stripTrailingEquals_chars s c :
  occursIn c (stripTrailingEquals s) -> occursIn c s.
Proof.
  induction s as [| d s IH]; cbn [stripTrailingEquals occursIn]; [tauto |].
  destruct (Ascii.eqb d "=" && isEmpty (stripTrailingEquals s));
    cbn [occursIn]; tauto.
Qed.

Lemma stripTrailingEquals_idempotent s :
  stripTrailingEquals (stripTrailingEquals s) = stripTrailingEquals s.
Proof.
  induction s as [| d s IH]; cbn [stripTrailingEquals]; [reflexivity |].
  destruct (Ascii.eqb d "=" && isEmpty (stripTrailingEquals s)) eqn:E;
    [reflexivity |].
  cbn [stripTrailingEquals]. now rewrite IH, E.
Qed.

Lemma normalizedKey_idempotent s :
  normalizedKey (normalizedKey s) = normalizedKey s.
Proof.
  unfold normalizedKey at 1.
  rewrite normalizeSecret_fixed.
  - apply stripTrailingEquals_idempotent.
  - intros c Hc. apply (normalizeSecret_chars s).
    now apply stripTrailingEquals_chars.
Qed.

Lemma removeChars_append p s1 s2 :
  removeChars p (s1 ++ s2)%string
  = (removeChars p s1 ++ removeChars p s2)%string.
Proof.
  induction s1 as [| c s1 IH]; cbn [String.append removeChars]; [reflexivity |].
  destruct (p c); cbn [String.append]; now rewrite IH.
Qed.

Lemma mapChars_append f s1 s2 :
  mapChars f (s1 ++ s2)%string = (mapChars f s1 ++ mapChars f s2)%string.
Proof.
  induction s1 as [| c s1 IH]; cbn [String.append mapChars]; [reflexivity |].
  now rewrite IH.
Qed.

Lemma normalizeSecret_padding n :
  normalizeSecret (repeatChar n "=") = repeatChar n "=".
Proof.
  unfold normalizeSecret, toUpperCase.
  induction n as [| n IH]; [reflexivity |].
  cbn [repeatChar removeChars mapChars]. change (isWhitespace "=") with false.
  cbn [mapChars]. now rewrite IH.
Qed.

Lemma stripTrailingEquals_padding n s :
  stripTrailingEquals (s ++ repeatChar n "=")%string = stripTrailingEquals s.
Proof.
  induction s as [| d s IH]; cbn [String.append stripTrailingEquals].
  - induction n as [| n IHn]; [reflexivity |].
    cbn [repeatChar stripTrailingEquals]. now rewrite IHn.
  - now rewrite IH.
Qed.

Lemma normalizedKey_padding n s :
  normalizedKey (s ++ repeatChar n "=")%string = normalizedKey s.
Proof.
  unfold normalizedKey, normalizeSecret, toUpperCase.
  rewrite removeChars_append, mapChars_append.
  fold (toUpperCase (removeChars isWhitespace (repeatChar n "="))).
  fold (normalizeSecret (repeatChar n "=")).
  rewrite normalizeSecret_padding. apply stripTrailingEquals_padding.
Qed.

(** [decodeBase32] looks at the normalized text only. *)
Lemma decodeBase32_normalizedKey s1 s2 :
  normalizedKey s1 = normalizedKey s2 -> decodeBase32 s1 = decodeBase32 s2.
Proof. intros H. unfold decodeBase32. now rewrite H. Qed.

(** [C8] Decoding is invariant under normalization: a text, its normal
    form, the same text in another letter case, with other white space or
    followed by '=' padding all decode to the same bytes (or fail alike). *)
Theorem C8_decode_invariant_under_normalization t :
  decodeBase32 (normalizeSecret t) = decodeBase32 t
  /\ decodeBase32 (normalizedKey t) = decodeBase32 t
  /\ (forall t', toUpperCase t' = toUpperCase t ->
                 decodeBase32 t' = decodeBase32 t)
  /\ (forall t', removeChars isWhitespace t' = removeChars isWhitespace t ->
                 decodeBase32 t' = decodeBase32 t)
  /\ (forall n, decodeBase32 (t ++ repeatChar n "=")%string = decodeBase32 t).
Proof.
  repeat apply conj.
  - apply decodeBase32_normalizedKey. unfold normalizedKey.
    now rewrite normalizeSecret_idempotent.
  - apply decodeBase32_normalizedKey, normalizedKey_idempotent.
  - intros t' H. apply decodeBase32_normalizedKey. unfold normalizedKey.
    now rewrite !normalizeSecret_commute, H.
  - intros t' H. apply decodeBase32_normalizedKey.
    unfold normalizedKey, normalizeSecret. now rewrite H.
  - intros n. apply decodeBase32_normalizedKey, normalizedKey_padding.
Qed.

Lemma C8_witness :
  toUpperCase "jbswy3dpehpk3pxp" = toUpperCase "JBSWY3DPEHPK3PXP"
  /\ decodeBase32 "jbswy3dpehpk3pxp" = decodeBase32 "JBSWY3DPEHPK3PXP"
  /\ removeChars isWhitespace "JBSW Y3DP EHPK 3PXP"
     = removeChars isWhitespace "JBSWY3DPEHPK3PXP"
  /\ decodeBase32 "JBSW Y3DP EHPK 3PXP" = decodeBase32 "JBSWY3DPEHPK3PXP".
Proof.
  pose proof (C8_decode_invariant_under_normalization "JBSWY3DPEHPK3PXP")
    as (_ & _ & Hcase & Hspace & _).
  split; [vm_compute; reflexivity |].
  split; [apply Hcase; vm_compute; reflexivity |].
  split; [vm_compute; reflexivity |]. apply Hspace; vm_compute; reflexivity.
Defined.

End Normalization.

(** ** The counter of a time stamp *)

Section Counter.

(** For a positive period the counter is the floor of the seconds by the
    period, and [period * 1000] milliseconds later it is one more. *)
Lemma counterAt_floor t p : 0 < p -> counterAt t p = t / 1000 / p.
Proof.
  intros Hp. unfold counterAt.
  destruct p as [| p | p]; try lia.
  unfold Qdiv, Qinv, Qmult, inject_Z, Qfloor. cbn [Qnum Qden].
  rewrite Z.div_div by lia. f_equal; lia.
Qed.

Lemma counterAt_step t p i :
  0 < p -> counterAt (t + i * p * 1000) p = counterAt t p + i.
Proof.
  intros Hp. rewrite !counterAt_floor by exact Hp.
  replace (t + i * p * 1000) with (t + (i * p) * 1000) by ring.
  rewrite Z.div_add by lia. now rewrite Z.div_add by lia.
Qed.

End Counter.

(** ** generateTOTP *)

Section Generate.
Variable createHmac : HashAlgorithm -> list Z -> list Z -> list Z.
Variable now : Z.

Lemma bind_ret {A B} (a : A) (f : A -> M B) : bind (ret a) f = f a.
Proof. unfold bind, ret. now destruct (f a). Qed.

Lemma bind_throw {A B} (message : string) (f : A -> M B) :
  bind (throw message) f = throw message.
Proof. reflexivity. Qed.

(** With a secret that it accepts, [generateTOTP] is [generateHOTP] at
    the counter of the time stamp. *)
Lemma generateTOTP_accepted secret options bytes :
  keyBytes secret = Some bytes ->
  generateTOTP createHmac now secret options =
  generateHOTP createHmac bytes
    (counterAt (default now (timestamp options))
               (default 30 (period options)))
    (default SHA1 (algorithm options)) (default 6 (digits options)).
Proof.
  unfold keyBytes, generateTOTP. cbv zeta.
  destruct secret as [text | raw |]; cbn [isFalsy].
  - destruct (isEmpty text); [discriminate |].
    destruct (decodeBase32 text); [| discriminate].
    intros [= ->]. now rewrite bind_ret.
  - intros [= ->]. now rewrite bind_ret.
  - discriminate.
Qed.

(** Otherwise it throws, without a call of the keyed hash. *)
Lemma generateTOTP_refused secret options :
  keyBytes secret = None ->
  generateTOTP createHmac now secret options =
  throw (match secret with
         | TextSecret text =>
             if isEmpty text then MissingSecret
             else match decodeBase32 text with
                  | Throw cause => InvalidSecret cause
                  | Return _ => MissingSecret
                  end
         | _ => MissingSecret
         end).
Proof.
  unfold keyBytes, generateTOTP. cbv zeta.
  destruct secret as [text | raw |]; cbn [isFalsy].
  - destruct (isEmpty text); [reflexivity |].
    destruct (decodeBase32 text); [discriminate | reflexivity].
  - discriminate.
  - reflexivity.
Qed.

(** The outcome of an accepted secret: one call of the keyed hash and a
    code of [digits] decimal digits. *)
Lemma generateTOTP_code secret options bytes :
  keyBytes secret = Some bytes ->
  1 <= default 6 (digits options) ->
  exists codeText,
    generateTOTP createHmac now secret options =
    (Return codeText,
     [(default SHA1 (algorithm options), bytes,
       counterBuffer (counterAt (default now (timestamp options))
                                (default 30 (period options))))])
    /\ strlen codeText = default 6 (digits options)
    /\ allChars isDigit codeText = true.
Proof.
  intros Hk Hd. rewrite (generateTOTP_accepted _ _ _ Hk).
  destruct (generateHOTP_code_text createHmac bytes
              (counterAt (default now (timestamp options))
                         (default 30 (period options)))
              (default SHA1 (algorithm options)) _ Hd)
    as (codeText & Hr & Hl & Ha & _).
  exists codeText. auto.
Qed.

End Generate.

(** ** verifyTOTP *)

Section VerifyLoop.
Variable createHmac : HashAlgorithm -> list Z -> list Z -> list Z.
Variable now : Z.
Variables (token : string) (secret : Secret) (bytes : list Z).
Variables (algorithm : HashAlgorithm) (digits period timestamp : Z).
Hypothesis Hkey : keyBytes secret = Some bytes.

Local Notation "'gen' i" :=
  (generateTOTP createHmac now secret
     (probe algorithm digits period (timestamp + i * period * 1000)))
  (at level 10, i at level 9).
Local Notation "'call' i" :=
  (hmacCallAt algorithm bytes period (timestamp + i * period * 1000))
  (at level 10, i at level 9).
Local Notation "'loop' n i" :=
  (verifyLoop createHmac now token secret algorithm digits period timestamp
     n i)
  (at level 10, n at level 9, i at level 9).

Lemma verifyLoop_S n i :
  loop (S n) i =
  bind (gen i)
    (fun generatedToken =>
       if String.eqb generatedToken token then ret (accepted i)
       else loop n (i + 1)).
Proof. reflexivity. Qed.

Lemma probe_call i : exists codeText, gen i = (Return codeText, [call i]).
Proof.
  rewrite (generateTOTP_accepted _ _ _ _ _ Hkey), generateHOTP_unfold.
  eexists. reflexivity.
Qed.

Lemma offsets_S first n : offsets first (S n) = first :: offsets (first + 1) n.
Proof.
  unfold offsets. cbn [seq map]. f_equal; [lia |].
  rewrite <- seq_shift, map_map. apply map_ext. intros k. lia.
Qed.

Lemma offsets_length first n : length (offsets first n) = n.
Proof. unfold offsets. now rewrite length_map, length_seq. Qed.

(** The loop stops at the first offset whose code is the token, having
    called the keyed hash once for every offset up to it, in order; without
    such an offset it runs through all of them and rejects. *)
Lemma verifyLoop_first_match n : forall i,
  (exists j,
      i <= j < i + Z.of_nat n
      /\ result (gen j) = Return token
      /\ (forall j', i <= j' < j -> result (gen j') <> Return token)
      /\ loop n i = (Return (accepted j),
                     map (fun i => call i) (offsets i (Z.to_nat (j - i + 1)))))
  \/ ((forall j, i <= j < i + Z.of_nat n -> result (gen j) <> Return token)
      /\ loop n i = (Return rejected, map (fun i => call i) (offsets i n))).
Proof.
  induction n as [| n IH]; intros i.
  - right. split; [intros j Hj; lia | reflexivity].
  - rewrite verifyLoop_S. destruct (probe_call i) as [codeText Hg].
    rewrite Hg. unfold bind.
    destruct (String.eqb_spec codeText token) as [-> | Hne].
    + left. exists i. repeat split; try lia.
      * now rewrite Hg.
      * replace (i - i + 1) with 1 by ring.
        change (Z.to_nat 1) with 1%nat. now rewrite offsets_S.
    + destruct (IH (i + 1)) as [(j & Hj & Hm & Hfirst & Hl) | (Hno & Hl)];
        rewrite Hl.
      * left. exists j. repeat split; try lia; [exact Hm | |].
        -- intros j' Hj'. destruct (Z.eq_dec j' i) as [-> | Hd].
           ++ rewrite Hg. cbn. congruence.
           ++ apply Hfirst. lia.
        -- replace (Z.to_nat (j - i + 1))
             with (S (Z.to_nat (j - (i + 1) + 1))) by lia.
           now rewrite offsets_S.
      * right. split.
        -- intros j Hj. destruct (Z.eq_dec j i) as [-> | Hd].
           ++ rewrite Hg. cbn. congruence.
           ++ apply Hno. lia.
        -- now rewrite offsets_S.
Qed.

End VerifyLoop.
Section Verify.
Variable createHmac : HashAlgorithm -> list Z -> list Z -> list Z.
Variable now : Z.

Lemma testDigits_nonempty token : testDigits token = true -> isEmpty token = false.
Proof.
  unfold testDigits. intros H. apply andb_true_iff in H as [H _].
  now apply negb_true_iff in H.
Qed.

(** A token that passes the format check enters the window loop. *)
Lemma verifyTOTP_checked token secret options :
  testDigits token = true ->
  strlen token = default 6 (digits options) ->
  verifyTOTP createHmac now token secret options =
  verifyLoop createHmac now token secret
    (default SHA1 (algorithm options)) (default 6 (digits options))
    (default 30 (period options)) (default now (timestamp options))
    (Z.to_nat (2 * default 1 (window options) + 1))
    (- default 1 (window options)).
Proof.
  intros Hd Hl. unfold verifyTOTP. cbv zeta.
  now rewrite (testDigits_nonempty _ Hd), Hd, Hl, Z.eqb_refl.
Qed.

(** For an accepted secret the outcome of [generateTOTP] depends on the
    resolved algorithm, digits, period and time stamp only. *)
Lemma generateTOTP_same secret bytes o1 o2 :
  keyBytes secret = Some bytes ->
  default SHA1 (algorithm o1) = default SHA1 (algorithm o2) ->
  default 6 (digits o1) = default 6 (digits o2) ->
  default 30 (period o1) = default 30 (period o2) ->
  default now (timestamp o1) = default now (timestamp o2) ->
  generateTOTP createHmac now secret o1 = generateTOTP createHmac now secret o2.
Proof.
  intros Hk Ha Hd Hp Ht.
  rewrite !(generateTOTP_accepted _ _ _ _ _ Hk). now rewrite Ha, Hd, Hp, Ht.
Qed.

(** [C5] A token that is empty, whose length is not the number of
    digits, or that has a character other than a decimal digit is
    rejected at once: for every secret and time stamp the outcome is
    [{valid: false}] and the keyed hash is not called. *)
Theorem C5_verify_rejects_malformed_token token secret options :
  token = EmptyString
  \/ strlen token <> default 6 (digits options)
  \/ (exists c, occursIn c token /\ isDigit c = false) ->
  verifyTOTP createHmac now token secret options = (Return rejected, []).
Proof.
  intros H. unfold verifyTOTP. cbv zeta.
  destruct H as [-> | [Hl | Hc]].
  - reflexivity.
  - apply Z.eqb_neq in Hl. rewrite Hl. cbn [negb].
    now rewrite orb_true_r.
  - apply allChars_false in Hc. unfold testDigits. rewrite Hc.
    now rewrite andb_false_r, orb_true_r.
Qed.

(** [C6], as the code has it: [generateTOTP] throws the missing-secret
    error when the secret is absent or the empty text, and the
    invalid-secret error with the message of the decoder when the secret
    is a non-empty text that [decodeBase32] refuses; a secret of raw bytes
    is never refused, not even the empty one.  No case calls the keyed hash
    before it throws. *)
Theorem C6_generate_secret_errors secret options :
  (secret = NoSecret \/ secret = TextSecret EmptyString ->
   generateTOTP createHmac now secret options = (Throw MissingSecret, []))
  /\ (forall text cause,
         secret = TextSecret text -> text <> EmptyString ->
         decodeBase32 text = Throw cause ->
         generateTOTP createHmac now secret options
         = (Throw (InvalidSecret cause), []))
  /\ (forall bytes,
         secret = RawSecret bytes ->
         exists codeText,
           result (generateTOTP createHmac now secret options)
           = Return codeText).
Proof.
  split; [| split].
  - intros [-> | ->]; reflexivity.
  - intros text cause -> Hne Hdec.
    rewrite generateTOTP_refused.
    + destruct (isEmpty text) eqn:He; [apply isEmpty_true in He; congruence |].
      now rewrite Hdec.
    + cbn [keyBytes]. destruct (isEmpty text); [reflexivity |].
      now rewrite Hdec.
  - intros bytes ->.
    rewrite (generateTOTP_accepted _ _ (RawSecret bytes) _ bytes eq_refl),
      generateHOTP_unfold.
    eexists. reflexivity.
Qed.

(** [C10], as the code has it: with a window that is not negative and a
    token that passes the format check, [verifyTOTP] does not return for a
    text that [decodeBase32] refuses: the first iteration of its loop throws
    the error of [generateTOTP], before any call of the keyed hash.  For a
    text that is not empty this is the invalid-secret error around the
    message of the decoder; for the empty text, which [generateTOTP] never
    gives to the decoder, it is the missing-secret error. *)
Theorem C10_verify_propagates_invalid_secret token text cause options :
  testDigits token = true ->
  strlen token = default 6 (digits options) ->
  0 <= default 1 (window options) ->
  decodeBase32 text = Throw cause ->
  (text <> EmptyString ->
   verifyTOTP createHmac now token (TextSecret text) options
   = (Throw (InvalidSecret cause), []))
  /\ (text = EmptyString ->
      verifyTOTP createHmac now token (TextSecret text) options
      = (Throw MissingSecret, [])).
Proof.
  intros Hd Hl Hw Hdec. rewrite (verifyTOTP_checked _ _ _ Hd Hl).
  destruct (Z.to_nat (2 * default 1 (window options) + 1)) as [| n] eqn:En;
    [lia |].
  rewrite verifyLoop_S, generateTOTP_refused.
  - split.
    + intros Hne.
      destruct (isEmpty text) eqn:He;
        [apply isEmpty_true in He; congruence |].
      now rewrite Hdec.
    + intros ->. reflexivity.
  - cbn [keyBytes]. destruct (isEmpty text); [reflexivity |].
    now rewrite Hdec.
Qed.

End Verify.
Section Window.
Variable createHmac : HashAlgorithm -> list Z -> list Z -> list Z.
Variable now : Z.

(** [C3], as the code has it: with a token that passes the format check
    and a window [w >= 0], [verifyTOTP] goes through the offsets from [-w]
    up to [w] and generates the code of the time stamp
    [timestamp + i * period * 1000] for each.  For a secret that
    [generateTOTP] accepts it returns [{valid: true, delta: i}] at the first
    [i] whose code is the token, and [{valid: false}] when no offset of the
    window has that code; the calls of the keyed hash are those of the
    offsets visited, in order.  For a secret that [generateTOTP] refuses it
    does not return: it throws the error of the call at the first offset,
    and the keyed hash is not called. *)
Theorem C3_verify_first_match token secret options :
  let w := default 1 (window options) in
  let algorithm := default SHA1 (algorithm options) in
  let digits := default 6 (digits options) in
  let period := default 30 (period options) in
  let timestamp := default now (timestamp options) in
  let gen := fun i =>
    generateTOTP createHmac now secret
      (probe algorithm digits period (timestamp + i * period * 1000)) in
  testDigits token = true ->
  strlen token = digits ->
  0 <= w ->
  (forall bytes,
      keyBytes secret = Some bytes ->
      let call := fun i =>
        hmacCallAt algorithm bytes period (timestamp + i * period * 1000) in
      (forall i,
          - w <= i <= w ->
          result (gen i) = Return token ->
          (forall j, - w <= j < i -> result (gen j) <> Return token) ->
          verifyTOTP createHmac now token secret options
          = (Return (accepted i),
             map call (offsets (- w) (Z.to_nat (i + w + 1)))))
      /\ ((forall i, - w <= i <= w -> result (gen i) <> Return token) ->
          verifyTOTP createHmac now token secret options
          = (Return rejected,
             map call (offsets (- w) (Z.to_nat (2 * w + 1))))))
  /\ (keyBytes secret = None ->
      exists message,
        gen (- w) = (Throw message, [])
        /\ verifyTOTP createHmac now token secret options
           = (Throw message, [])).
Proof.
  intros w algorithm digits period timestamp gen Hd Hl Hw.
  rewrite (verifyTOTP_checked _ _ _ _ _ Hd Hl).
  fold w algorithm digits period timestamp.
  split.
  - intros bytes Hkey call.
    destruct (verifyLoop_first_match createHmac now token secret bytes
                algorithm digits period timestamp Hkey
                (Z.to_nat (2 * w + 1)) (- w))
      as [(j & Hj & Hm & Hfirst & Hloop) | (Hno & Hloop)]; rewrite Hloop.
    + split.
      * intros i Hi Hmi Hfi.
        assert (i = j).
        { destruct (Z.lt_trichotomy i j) as [Hlt | [Heq | Hgt]];
            [| exact Heq |].
          - exfalso. apply (Hfirst i); [lia | exact Hmi].
          - exfalso. apply (Hfi j); [lia | exact Hm]. }
        subst i. now replace (j - - w + 1) with (j + w + 1) by ring.
      * intros Hnone. exfalso. apply (Hnone j); [lia | exact Hm].
    + split.
      * intros i Hi Hmi _. exfalso. apply (Hno i); [lia | exact Hmi].
      * reflexivity.
  - intros Hk.
    destruct (Z.to_nat (2 * w + 1)) as [| n] eqn:En; [lia |].
    rewrite verifyLoop_S. subst gen. cbv beta.
    rewrite !generateTOTP_refused by exact Hk.
    eexists. split; reflexivity.
Qed.

(** With an accepted secret [verifyTOTP] returns, whatever the token. *)
Lemma verifyTOTP_returns token secret bytes options :
  keyBytes secret = Some bytes ->
  exists r, result (verifyTOTP createHmac now token secret options) = Return r.
Proof.
  intros Hkey. unfold verifyTOTP. cbv zeta.
  match goal with |- context [if ?b then _ else _] => destruct b end;
    [now exists rejected |].
  match goal with
  | |- context [verifyLoop _ _ _ _ ?a ?d ?p ?t ?n ?i] =>
      destruct (verifyLoop_first_match createHmac now token secret bytes
                  a d p t Hkey n i)
        as [(j & _ & _ & _ & Hloop) | (_ & Hloop)]; rewrite Hloop
  end; eexists; reflexivity.
Qed.

End Window.
Section RoundTrip.
Variable createHmac : HashAlgorithm -> list Z -> list Z -> list Z.
Variable now : Z.

(** The code of an accepted secret passes the format check of
    [verifyTOTP] for the same number of digits. *)
Lemma generated_code_checked secret bytes options codeText :
  keyBytes secret = Some bytes ->
  1 <= default 6 (digits options) ->
  result (generateTOTP createHmac now secret options) = Return codeText ->
  testDigits codeText = true /\ strlen codeText = default 6 (digits options).
Proof.
  intros Hkey Hd Hr.
  destruct (generateTOTP_code createHmac now secret options bytes Hkey Hd)
    as (c & Hg & Hl & Ha).
  rewrite Hg in Hr. cbn [result fst] in Hr. injection Hr as <-.
  split; [| exact Hl]. unfold testDigits. rewrite Ha.
  destruct c; [change (strlen "") with 0 in Hl; lia | reflexivity].
Qed.

(** The call of [generateTOTP] that the loop makes at offset [i]. *)
Lemma probe_withTimeWindow secret bytes options t i :
  keyBytes secret = Some bytes ->
  generateTOTP createHmac now secret
    (probe (default SHA1 (algorithm options)) (default 6 (digits options))
           (default 30 (period options))
           (t + i * default 30 (period options) * 1000))
  = generateTOTP createHmac now secret
      (withTimeWindow options (t + i * default 30 (period options) * 1000)
                      None).
Proof. intros Hkey. now apply (generateTOTP_same _ _ _ bytes). Qed.

(** One iteration of the loop, by the outcome of [generateTOTP]. *)
Lemma verifyLoop_hit token secret algorithm digits period timestamp n i :
  result (generateTOTP createHmac now secret
            (probe algorithm digits period (timestamp + i * period * 1000)))
  = Return token ->
  result (verifyLoop createHmac now token secret algorithm digits period
            timestamp (S n) i)
  = Return (accepted i).
Proof.
  intros H. rewrite verifyLoop_S.
  destruct (generateTOTP _ _ _ _) as [r calls]. cbn [result fst] in H.
  subst r. unfold bind. now rewrite String.eqb_refl.
Qed.

Lemma verifyLoop_miss token secret algorithm digits period timestamp n i c :
  result (generateTOTP createHmac now secret
            (probe algorithm digits period (timestamp + i * period * 1000)))
  = Return c ->
  c <> token ->
  result (verifyLoop createHmac now token secret algorithm digits period
            timestamp (S n) i)
  = result (verifyLoop createHmac now token secret algorithm digits period
              timestamp n (i + 1)).
Proof.
  intros H Hne. rewrite verifyLoop_S.
  destruct (generateTOTP _ _ _ _) as [r calls]. cbn [result fst] in H.
  subst r. unfold bind. apply String.eqb_neq in Hne. rewrite Hne.
  now destruct (verifyLoop _ _ _ _ _ _ _ _ _ _).
Qed.

Lemma verifyTOTP_withTimeWindow token secret options t w :
  testDigits token = true ->
  strlen token = default 6 (digits options) ->
  verifyTOTP createHmac now token secret (withTimeWindow options t w) =
  verifyLoop createHmac now token secret
    (default SHA1 (algorithm options)) (default 6 (digits options))
    (default 30 (period options)) t
    (Z.to_nat (2 * default 1 w + 1)) (- default 1 w).
Proof. intros Hd Hl. now rewrite verifyTOTP_checked. Qed.

(** [C4], as the code has it: the code of an accepted secret at a time
    stamp is valid at that time stamp, with delta 0 unless the code of
    the step before is the same text, which the default window of 1 finds
    first and reports as delta -1; and the code of the step before is
    valid with delta -1 under a window of 1. *)
Theorem C4_verify_generated_code secret bytes options t code prev :
  keyBytes secret = Some bytes ->
  1 <= default 6 (digits options) ->
  result (generateTOTP createHmac now secret (withTimeWindow options t None))
  = Return code ->
  result (generateTOTP createHmac now secret
            (withTimeWindow options
               (t - default 30 (period options) * 1000) None))
  = Return prev ->
  result (verifyTOTP createHmac now code secret
            (withTimeWindow options t None))
  = Return (accepted (if String.eqb prev code then -1 else 0))
  /\ result (verifyTOTP createHmac now prev secret
               (withTimeWindow options t (Some 1)))
     = Return (accepted (-1)).
Proof.
  intros Hkey Hd Hcode Hprev.
  destruct (generated_code_checked secret bytes
              (withTimeWindow options t None) code Hkey Hd Hcode)
    as [Hc1 Hc2].
  destruct (generated_code_checked secret bytes
              (withTimeWindow options
                 (t - default 30 (period options) * 1000) None)
              prev Hkey Hd Hprev)
    as [Hp1 Hp2].
  pose proof (probe_withTimeWindow secret bytes options t (-1) Hkey) as Em1.
  pose proof (probe_withTimeWindow secret bytes options t 0 Hkey) as E0.
  set (p := default 30 (period options)) in *.
  replace (withTimeWindow options (t + -1 * p * 1000) None)
    with (withTimeWindow options (t - p * 1000) None) in Em1
    by (f_equal; ring).
  replace (withTimeWindow options (t + 0 * p * 1000) None)
    with (withTimeWindow options t None) in E0 by (f_equal; ring).
  rewrite <- Em1 in Hprev. rewrite <- E0 in Hcode.
  rewrite !verifyTOTP_withTimeWindow by assumption. fold p.
  change (Z.to_nat (2 * default 1 None + 1)) with 3%nat.
  change (Z.to_nat (2 * default 1 (Some 1) + 1)) with 3%nat.
  change (- default 1 None) with (-1). change (- default 1 (Some 1)) with (-1).
  split; [| now apply verifyLoop_hit].
  destruct (String.eqb_spec prev code) as [-> | Hne].
  - now apply verifyLoop_hit.
  - rewrite (verifyLoop_miss _ _ _ _ _ _ _ _ prev Hprev Hne).
    change (-1 + 1) with 0. now apply verifyLoop_hit.
Qed.

End RoundTrip.
Section OutsideWindow.
Variable createHmac : HashAlgorithm -> list Z -> list Z -> list Z.
Variable now : Z.

(** [C9], as the code has it: the code of the step [k] with
    [|k| = w + 1], verified with window [w], is rejected exactly when no
    offset of the window has the same code text; codes are numbers of
    [digits] decimal digits, and one that coincides with a code of the
    window is accepted. *)
Theorem C9_code_outside_window secret bytes options t w k code :
  keyBytes secret = Some bytes ->
  1 <= default 6 (digits options) ->
  0 <= w ->
  Z.abs k = w + 1 ->
  result (generateTOTP createHmac now secret
            (withTimeWindow options
               (t + k * default 30 (period options) * 1000) None))
  = Return code ->
  (result (verifyTOTP createHmac now code secret
             (withTimeWindow options t (Some w)))
   = Return rejected
   <-> forall i,
         - w <= i <= w ->
         result (generateTOTP createHmac now secret
                   (withTimeWindow options
                      (t + i * default 30 (period options) * 1000) None))
         <> Return code).
Proof.
  intros Hkey Hd Hw Hk Hcode.
  destruct (generated_code_checked createHmac now secret bytes
              (withTimeWindow options
                 (t + k * default 30 (period options) * 1000) None)
              code Hkey Hd Hcode) as [Hc1 Hc2].
  rewrite verifyTOTP_withTimeWindow by assumption.
  cbn [default from_option id].
  destruct (verifyLoop_first_match createHmac now code secret bytes
              (default SHA1 (algorithm options)) (default 6 (digits options))
              (default 30 (period options)) t Hkey
              (Z.to_nat (2 * w + 1)) (- w))
    as [(j & Hj & Hm & _ & Hloop) | (Hno & Hloop)]; rewrite Hloop;
    cbn [result fst].
  - split; [discriminate |].
    intros Hnone. exfalso. apply (Hnone j); [lia |].
    now rewrite <- (probe_withTimeWindow createHmac now secret bytes options
                      t j Hkey).
  - split; [| reflexivity].
    intros _ i Hi.
    rewrite <- (probe_withTimeWindow createHmac now secret bytes options
                  t i Hkey).
    apply Hno. lia.
Qed.

End OutsideWindow.

(** ** Test values *)

Section TestValues.

(** The keyed hash on the test case of RFC 2202 and RFC 4231 with the key
    "Jefe". *)
Example hmac_sha1_rfc2202 :
  Crypto.hmac SHA1 rfc_key rfc_data
  = Crypto.be_bytes 20 0xeffcdf6ae5eb2fa2d27416d5f184df9c259a7c79.
Proof. vm_compute. reflexivity. Qed.

Example hmac_sha256_rfc4231 :
  Crypto.hmac SHA256 rfc_key rfc_data
  = Crypto.be_bytes 32
      0x5bdcc146bf60754e6a042426089575c75a003f089d2739839dec58b964ec3843.
Proof. vm_compute. reflexivity. Qed.

Example hmac_sha512_rfc4231 :
  Crypto.hmac SHA512 rfc_key rfc_data
  = Crypto.be_bytes 64
      0x164b7a7bfcf819e2e395fbe73b56e0a387bd64222e831fd610270cd7ea2505549758bf75c05a994a6d034f65f8f0e6fdcaeab1a34d4a6b4b636e070a38bce737.
Proof. vm_compute. reflexivity. Qed.

(** The first test values of RFC 4226, appendix D. *)
Example hotp_rfc4226 :
  map (fun counter =>
         result (generateHOTP Crypto.hmac rfc4226Key counter SHA1 6))
      [0; 1; 2; 3]
  = [Return "755224"; Return "287082"; Return "359152"; Return "969429"]%string.
Proof. vm_compute. reflexivity. Qed.

Example decodeBase32_testSecret :
  decodeBase32 "JBSWY3DPEHPK3PXP" = Return testKey
  /\ decodeBase32 "jbswy3dpehpk3pxp" = Return testKey
  /\ decodeBase32 "JBSW Y3DP EHPK 3PXP" = Return testKey.
Proof. repeat split. Qed.

Example decodeBase32_failures :
  decodeBase32 "" = Throw EmptySecret
  /\ decodeBase32 "   " = Throw EmptySecret
  /\ decodeBase32 "!@#$" = Throw InvalidCharacter.
Proof. repeat split. Qed.

Example keyBytes_testSecret : keyBytes testSecret = Some testKey.
Proof. reflexivity. Qed.

(** The literal of the specification: the test secret, SHA-1, 6 digits,
    period 30 at the time stamp 1635000000000. *)
Example generateTOTP_literal :
  generateTOTP Crypto.hmac 0 testSecret (atTime 1635000000000)
  = (Return "930202"%string, [(SHA1, testKey, [0; 0; 0; 0; 3; 63; 154; 160])]).
Proof. vm_compute. reflexivity. Qed.

(** Counters that differ by a multiple of 2^32 get the same code. *)
Example generateHOTP_counter_wraps :
  generateHOTP Crypto.hmac testKey 4294967296 SHA1 6
  = generateHOTP Crypto.hmac testKey 0 SHA1 6.
Proof. reflexivity. Qed.

End TestValues.

(** ** The theorems at concrete inputs *)

Section Instances.

Lemma C3_witness :
  testDigits "930202" = true
  /\ strlen "930202" = 6
  /\ 0 <= 1
  /\ keyBytes testSecret = Some testKey
  /\ verifyTOTP Crypto.hmac 0 "930202" testSecret
       (atTimeWindow 1635000000000 1)
     = (Return (accepted 0),
        [hmacCallAt SHA1 testKey 30 (1635000000000 + -1 * 30 * 1000);
         hmacCallAt SHA1 testKey 30 (1635000000000 + 0 * 30 * 1000)])
  /\ verifyTOTP Crypto.hmac 0 "000000" testSecret
       (atTimeWindow 1635000000000 1)
     = (Return rejected,
        [hmacCallAt SHA1 testKey 30 (1635000000000 + -1 * 30 * 1000);
         hmacCallAt SHA1 testKey 30 (1635000000000 + 0 * 30 * 1000);
         hmacCallAt SHA1 testKey 30 (1635000000000 + 1 * 30 * 1000)])
  /\ keyBytes (TextSecret "1") = None
  /\ exists message,
       generateTOTP Crypto.hmac 0 (TextSecret "1")
         (probe SHA1 6 30 (1635000000000 + - (1) * 30 * 1000))
       = (Throw message, [])
       /\ verifyTOTP Crypto.hmac 0 "930202" (TextSecret "1")
            (atTimeWindow 1635000000000 1)
          = (Throw message, []).
Proof.
  assert (H1 : testDigits "930202" = true) by reflexivity.
  assert (H2 : strlen "930202" = 6) by reflexivity.
  assert (H3 : 0 <= 1) by lia.
  assert (H4 : keyBytes testSecret = Some testKey) by reflexivity.
  assert (H5 : keyBytes (TextSecret "1") = None) by reflexivity.
  do 4 (split; [assumption |]).
  split; [| split; [| split; [exact H5 |]]].
  - apply (proj1 (proj1 (C3_verify_first_match Crypto.hmac 0 "930202"
                           testSecret (atTimeWindow 1635000000000 1)
                           H1 H2 H3) testKey H4) 0).
    + cbn. lia.
    + vm_compute. reflexivity.
    + intros j Hj. cbn in Hj. assert (j = -1) by lia. subst j.
      vm_compute. discriminate.
  - apply (proj2 (proj1 (C3_verify_first_match Crypto.hmac 0 "000000"
                           testSecret (atTimeWindow 1635000000000 1)
                           eq_refl eq_refl H3) testKey H4)).
    intros i Hi. cbn in Hi.
    assert (Hc : i = -1 \/ i = 0 \/ i = 1) by lia.
    destruct Hc as [-> | [-> | ->]]; vm_compute; discriminate.
  - exact (proj2 (C3_verify_first_match Crypto.hmac 0 "930202"
                    (TextSecret "1") (atTimeWindow 1635000000000 1)
                    H1 H2 H3) H5).
Defined.

Lemma C4_witness :
  keyBytes testSecret = Some testKey
  /\ 1 <= 6
  /\ result (generateTOTP Crypto.hmac 0 testSecret
               (withTimeWindow (atTime 0) 1635000000000 None))
     = Return "930202"%string
  /\ result (generateTOTP Crypto.hmac 0 testSecret
               (withTimeWindow (atTime 0) (1635000000000 - 30 * 1000) None))
     = Return "504455"%string
  /\ result (verifyTOTP Crypto.hmac 0 "930202" testSecret
               (withTimeWindow (atTime 0) 1635000000000 None))
     = Return (accepted 0)
  /\ result (verifyTOTP Crypto.hmac 0 "504455" testSecret
               (withTimeWindow (atTime 0) 1635000000000 (Some 1)))
     = Return (accepted (-1)).
Proof.
  assert (H1 : keyBytes testSecret = Some testKey) by reflexivity.
  assert (H2 : 1 <= 6) by lia.
  assert (H3 : result (generateTOTP Crypto.hmac 0 testSecret
                         (withTimeWindow (atTime 0) 1635000000000 None))
               = Return "930202"%string) by (vm_compute; reflexivity).
  assert (H4 : result (generateTOTP Crypto.hmac 0 testSecret
                         (withTimeWindow (atTime 0)
                            (1635000000000 - 30 * 1000) None))
               = Return "504455"%string) by (vm_compute; reflexivity).
  repeat (split; [assumption |]).
  exact (C4_verify_generated_code Crypto.hmac 0 testSecret testKey (atTime 0)
           1635000000000 "930202" "504455" H1 H2 H3 H4).
Defined.

Lemma C5_witness :
  (strlen "12345" <> 6
   /\ verifyTOTP Crypto.hmac 0 "12345" testSecret (atTime 1635000000000)
      = (Return rejected, []))
  /\ ((exists c, occursIn c "abcdef" /\ isDigit c = false)
      /\ verifyTOTP Crypto.hmac 0 "abcdef" (TextSecret "!")
           (atTime 1635000000000)
         = (Return rejected, []))
  /\ verifyTOTP Crypto.hmac 0 "" NoSecret (atTime 1635000000000)
     = (Return rejected, []).
Proof.
  assert (H1 : strlen "12345" <> 6) by (vm_compute; discriminate).
  assert (H2 : exists c, occursIn c "abcdef" /\ isDigit c = false).
  { exists "a"%char. split; [now left | reflexivity]. }
  split; [split; [exact H1 |] | split; [split; [exact H2 |] |]].
  - apply C5_verify_rejects_malformed_token. right. left. exact H1.
  - apply C5_verify_rejects_malformed_token. right. right. exact H2.
  - apply C5_verify_rejects_malformed_token. left. reflexivity.
Defined.

Lemma C6_witness :
  generateTOTP Crypto.hmac 0 (TextSecret "") (atTime 1635000000000)
  = (Throw MissingSecret, [])
  /\ ("!@#$%^"%string <> EmptyString
      /\ decodeBase32 "!@#$%^" = Throw InvalidCharacter
      /\ generateTOTP Crypto.hmac 0 (TextSecret "!@#$%^")
           (atTime 1635000000000)
         = (Throw (InvalidSecret InvalidCharacter), []))
  /\ exists codeText,
       result (generateTOTP Crypto.hmac 0 (RawSecret testKey)
                 (atTime 1635000000000))
       = Return codeText.
Proof.
  split; [| split; [split; [discriminate | split; [reflexivity |]] |]].
  - apply (proj1 (C6_generate_secret_errors Crypto.hmac 0 (TextSecret "")
                    (atTime 1635000000000))).
    right. reflexivity.
  - apply (proj1 (proj2 (C6_generate_secret_errors Crypto.hmac 0
                           (TextSecret "!@#$%^") (atTime 1635000000000)))
             "!@#$%^"%string InvalidCharacter);
      [reflexivity | discriminate | reflexivity].
  - apply (proj2 (proj2 (C6_generate_secret_errors Crypto.hmac 0
                           (RawSecret testKey) (atTime 1635000000000)))
             testKey).
    reflexivity.
Defined.

Lemma C9_witness :
  keyBytes testSecret = Some testKey
  /\ 1 <= 6
  /\ 0 <= 1
  /\ Z.abs (-2) = 1 + 1
  /\ result (generateTOTP Crypto.hmac 0 testSecret
               (withTimeWindow (atTime 0)
                  (1635000000000 + -2 * 30 * 1000) None))
     = Return "701657"%string
  /\ result (verifyTOTP Crypto.hmac 0 "701657" testSecret
               (withTimeWindow (atTime 0) 1635000000000 (Some 1)))
     = Return rejected.
Proof.
  assert (H1 : keyBytes testSecret = Some testKey) by reflexivity.
  assert (H2 : 1 <= 6) by lia.
  assert (H3 : 0 <= 1) by lia.
  assert (H4 : Z.abs (-2) = 1 + 1) by reflexivity.
  assert (H5 : result (generateTOTP Crypto.hmac 0 testSecret
                         (withTimeWindow (atTime 0)
                            (1635000000000 + -2 * 30 * 1000) None))
               = Return "701657"%string) by (vm_compute; reflexivity).
  repeat (split; [assumption |]).
  apply (proj2 (C9_code_outside_window Crypto.hmac 0 testSecret testKey
                  (atTime 0) 1635000000000 1 (-2) "701657" H1 H2 H3 H4 H5)).
  intros i Hi.
  assert (Hc : i = -1 \/ i = 0 \/ i = 1) by lia.
  destruct Hc as [-> | [-> | ->]]; vm_compute; discriminate.
Defined.

Lemma C10_witness :
  testDigits "123456" = true
  /\ strlen "123456" = 6
  /\ 0 <= 1
  /\ ("!@#$%^"%string <> EmptyString
      /\ decodeBase32 "!@#$%^" = Throw InvalidCharacter
      /\ verifyTOTP Crypto.hmac 0 "123456" (TextSecret "!@#$%^")
           (atTime 1635000000000)
         = (Throw (InvalidSecret InvalidCharacter), []))
  /\ (decodeBase32 "" = Throw EmptySecret
      /\ verifyTOTP Crypto.hmac 0 "123456" (TextSecret "")
           (atTimeWindow 1635000000000 2)
         = (Throw MissingSecret, [])).
Proof.
  assert (H1 : testDigits "123456" = true) by reflexivity.
  assert (H2 : strlen "123456" = 6) by reflexivity.
  assert (H3 : 0 <= 1) by lia.
  assert (H3' : 0 <= 2) by lia.
  assert (H4 : "!@#$%^"%string <> EmptyString) by discriminate.
  assert (H5 : decodeBase32 "!@#$%^" = Throw InvalidCharacter) by reflexivity.
  assert (H6 : decodeBase32 "" = Throw EmptySecret) by reflexivity.
  do 3 (split; [assumption |]).
  split; [split; [exact H4 | split; [exact H5 |]] | split; [exact H6 |]].
  - exact (proj1 (C10_verify_propagates_invalid_secret Crypto.hmac 0 "123456"
                    "!@#$%^" InvalidCharacter (atTime 1635000000000)
                    H1 H2 H3 H5) H4).
  - exact (proj2 (C10_verify_propagates_invalid_secret Crypto.hmac 0 "123456"
                    "" EmptySecret (atTimeWindow 1635000000000 2)
                    H1 H2 H3' H6) eq_refl).
Defined.

(** *** Where the claims of the specification fail as stated *)

(** [C3] "every secret": with a text that is not Base32 no offset of the
    window generates the token, and [verifyTOTP] throws instead of
    returning [{valid: false}]. *)
Lemma C3_counterexample :
  testDigits "000000" = true
  /\ strlen "000000" = 6
  /\ result (generateTOTP Crypto.hmac 0 (TextSecret "!")
               (probe SHA1 6 30 (1635000000000 + -1 * 30 * 1000)))
     = Throw (InvalidSecret InvalidCharacter)
  /\ result (generateTOTP Crypto.hmac 0 (TextSecret "!")
               (probe SHA1 6 30 (1635000000000 + 0 * 30 * 1000)))
     = Throw (InvalidSecret InvalidCharacter)
  /\ result (generateTOTP Crypto.hmac 0 (TextSecret "!")
               (probe SHA1 6 30 (1635000000000 + 1 * 30 * 1000)))
     = Throw (InvalidSecret InvalidCharacter)
  /\ result (verifyTOTP Crypto.hmac 0 "000000" (TextSecret "!")
               (atTimeWindow 1635000000000 1))
     = Throw (InvalidSecret InvalidCharacter)
  /\ result (verifyTOTP Crypto.hmac 0 "000000" (TextSecret "!")
               (atTimeWindow 1635000000000 1))
     <> Return rejected.
Proof. repeat split. discriminate. Qed.

(** [C4] delta 0: the test secret has the code 249386 at the time stamp
    1687378800000 and at the step before it; verified at that time stamp
    with the default window, it is reported with delta -1. *)
Lemma C4_counterexample :
  result (generateTOTP Crypto.hmac 0 testSecret (atTime 1687378800000))
  = Return "249386"%string
  /\ result (verifyTOTP Crypto.hmac 0 "249386" testSecret
               (atTime 1687378800000))
     = Return (accepted (-1))
  /\ accepted (-1) <> accepted 0.
Proof.
  split; [vm_compute; reflexivity |].
  split; [vm_compute; reflexivity | discriminate].
Qed.

(** [C6] "empty raw bytes": an empty [Uint8Array] is not falsy, and
    [generateTOTP] returns a code for the empty key. *)
Lemma C6_counterexample :
  result (generateTOTP Crypto.hmac 0 (RawSecret []) (atTime 1635000000000))
  = Return "973852"%string
  /\ result (generateTOTP Crypto.hmac 0 (RawSecret []) (atTime 1635000000000))
     <> Throw MissingSecret.
Proof. split; [vm_compute; reflexivity | vm_compute; discriminate]. Qed.

(** [C9] window 0, one step away: the test secret has the code 854198 at
    the time stamp 1730505720000 and at the step after it, so that code
    of the next step is accepted at 1730505720000 with window 0. *)
Lemma C9_counterexample :
  0 <= 0
  /\ Z.abs 1 = 0 + 1
  /\ result (generateTOTP Crypto.hmac 0 testSecret
               (atTime (1730505720000 + 1 * 30 * 1000)))
     = Return "854198"%string
  /\ result (verifyTOTP Crypto.hmac 0 "854198" testSecret
               (atTimeWindow 1730505720000 0))
     = Return (accepted 0)
  /\ accepted 0 <> rejected.
Proof.
  split; [lia |]. split; [reflexivity |].
  split; [vm_compute; reflexivity |].
  split; [vm_compute; reflexivity | discriminate].
Qed.

(** [C10] the empty text: [decodeBase32] refuses it, but [generateTOTP]
    never gets to decode it; [verifyTOTP] throws the missing-secret error,
    not the invalid-secret error that wraps the decoder's. *)
Lemma C10_counterexample :
  testDigits "123456" = true
  /\ strlen "123456" = 6
  /\ decodeBase32 "" = Throw EmptySecret
  /\ result (verifyTOTP Crypto.hmac 0 "123456" (TextSecret "")
               (atTime 1635000000000))
     = Throw MissingSecret
  /\ MissingSecret <> InvalidSecret EmptySecret.
Proof. repeat split. discriminate. Qed.

End Instances.
(** * Further properties of the engine *)

(** ** The counter buffer *)

Section CounterBufferMore.
Variable createHmac : HashAlgorithm -> list Z -> list Z -> list Z.

Lemma bigEndian8_bytes c :
  length (bigEndian8 c) = 8%nat
  /\ Forall (fun b => 0 <= b < 256) (bigEndian8 c).
Proof.
  rewrite bigEndian8_unfold. split; [reflexivity |].
  repeat constructor; apply Z.mod_pos_bound; lia.
Qed.

Lemma counterBuffer_congruent c k :
  counterBuffer (c + k * 2 ^ 32) = counterBuffer c.
Proof. now rewrite !counterBuffer_wraps, Z_mod_plus_full. Qed.

(** For a counter from 0 up to 2^32 - 1 the message that [generateHOTP]
    hashes is the counter in 8 bytes, most significant first. *)
Theorem X1_counter_below_2_32_is_big_endian key counter algorithm digits :
  0 <= counter < 2 ^ 32 ->
  hmacCalls (generateHOTP createHmac key counter algorithm digits)
  = [(algorithm, key, bigEndian8 counter)].
Proof.
  intros Hc. rewrite generateHOTP_unfold. cbn [hmacCalls snd].
  now rewrite counterBuffer_below_2_32.
Qed.

(** The loop keeps 32 bits of the counter: counters that differ by a
    multiple of 2^32 (negative counters included) are hashed alike and get
    the same code. *)
Theorem X2_counters_congruent_mod_2_32_collide key counter k algorithm digits :
  generateHOTP createHmac key (counter + k * 2 ^ 32) algorithm digits
  = generateHOTP createHmac key counter algorithm digits.
Proof.
  rewrite !generateHOTP_unfold.
  rewrite (counterBuffer_congruent counter k).
  reflexivity.
Qed.

(** Whatever the counter, the buffer has 8 entries and each is a byte. *)
Theorem X3_counter_buffer_is_8_bytes counter :
  length (counterBuffer counter) = 8%nat
  /\ Forall (fun b => 0 <= b < 256) (counterBuffer counter)
  /\ firstn 4 (counterBuffer counter) = [0; 0; 0; 0].
Proof.
  rewrite counterBuffer_wraps.
  destruct (bigEndian8_bytes (counter mod 2 ^ 32)) as [Hl Hb].
  split; [exact Hl |]. split; [exact Hb |].
  rewrite <- counterBuffer_wraps, counterBuffer_low32. reflexivity.
Qed.

End CounterBufferMore.

Lemma X1_witness :
  0 <= 54500000 < 2 ^ 32
  /\ hmacCalls (generateHOTP Crypto.hmac testKey 54500000 SHA1 6)
     = [(SHA1, testKey, bigEndian8 54500000)].
Proof.
  split; [lia |].
  apply X1_counter_below_2_32_is_big_endian. lia.
Defined.
(** ** Time steps *)

Section TimeSteps.
Variable createHmac : HashAlgorithm -> list Z -> list Z -> list Z.
Variable now : Z.

(** Without an accepted secret the outcome does not depend on the options. *)
Lemma generateTOTP_refused_any secret o1 o2 :
  keyBytes secret = None ->
  generateTOTP createHmac now secret o1 = generateTOTP createHmac now secret o2.
Proof. intros Hk. now rewrite !generateTOTP_refused. Qed.

Lemma counterAt_floor_ms t p : 0 < p -> counterAt t p = t / (1000 * p).
Proof. intros Hp. rewrite counterAt_floor, Z.div_div by lia. reflexivity. Qed.

(** The time stamp counts through the number of its period only: within
    one period of [period] seconds [generateTOTP] gives the same outcome and
    hashes the same message. *)
Theorem X4_generate_constant_within_period secret options t1 t2 :
  0 < default 30 (period options) ->
  t1 / (1000 * default 30 (period options))
  = t2 / (1000 * default 30 (period options)) ->
  generateTOTP createHmac now secret (withTimeWindow options t1 None)
  = generateTOTP createHmac now secret (withTimeWindow options t2 None).
Proof.
  intros Hp Ht. destruct (keyBytes secret) as [bytes |] eqn:Hk.
  - rewrite !(generateTOTP_accepted _ _ _ _ _ Hk).
    cbn [withTimeWindow algorithm digits period timestamp default from_option
         id].
    now rewrite !counterAt_floor_ms, Ht by exact Hp.
  - now apply generateTOTP_refused_any.
Qed.

End TimeSteps.

Lemma X4_witness :
  0 < default 30 (period (atTime 0))
  /\ 1635000000000 / (1000 * default 30 (period (atTime 0)))
     = 1635000029999 / (1000 * default 30 (period (atTime 0)))
  /\ generateTOTP Crypto.hmac 0 testSecret
       (withTimeWindow (atTime 0) 1635000000000 None)
     = generateTOTP Crypto.hmac 0 testSecret
         (withTimeWindow (atTime 0) 1635000029999 None).
Proof.
  assert (H1 : 0 < default 30 (period (atTime 0))) by (cbn; lia).
  assert (H2 : 1635000000000 / (1000 * default 30 (period (atTime 0)))
               = 1635000029999 / (1000 * default 30 (period (atTime 0))))
    by (vm_compute; reflexivity).
  split; [exact H1 |]. split; [exact H2 |].
  exact (X4_generate_constant_within_period Crypto.hmac 0 testSecret (atTime 0)
           1635000000000 1635000029999 H1 H2).
Defined.
(** ** The window of verifyTOTP *)

Section WindowMore.
Variable createHmac : HashAlgorithm -> list Z -> list Z -> list Z.
Variable now : Z.

(** The format check, as one test. *)
Lemma verifyTOTP_cases token secret options :
  verifyTOTP createHmac now token secret options =
  if testDigits token && (strlen token =? default 6 (digits options))
  then verifyLoop createHmac now token secret
         (default SHA1 (algorithm options)) (default 6 (digits options))
         (default 30 (period options)) (default now (timestamp options))
         (Z.to_nat (2 * default 1 (window options) + 1))
         (- default 1 (window options))
  else (Return rejected, []).
Proof.
  unfold verifyTOTP. cbv zeta. unfold testDigits.
  destruct (isEmpty token); cbn [negb andb orb]; [reflexivity |].
  destruct (strlen token =? default 6 (digits options));
    destruct (allChars isDigit token); reflexivity.
Qed.

(** With a secret that [generateTOTP] refuses, the first iteration throws. *)
Lemma verifyLoop_refused token secret algorithm digits period timestamp n i :
  keyBytes secret = None ->
  exists message,
    verifyLoop createHmac now token secret algorithm digits period timestamp
      (S n) i
    = (Throw message, []).
Proof.
  intros Hk. rewrite verifyLoop_S, generateTOTP_refused by exact Hk.
  eexists. reflexivity.
Qed.

Lemma In_offsets first n j :
  In j (offsets first n) <-> first <= j < first + Z.of_nat n.
Proof.
  unfold offsets. rewrite in_map_iff. split.
  - intros (k & <- & Hk). apply in_seq in Hk. lia.
  - intros Hj. exists (Z.to_nat (j - first)). split; [lia |].
    apply in_seq. lia.
Qed.

(** The outcomes of [verifyTOTP], by the format check, the window and the
    secret. *)
Lemma verifyTOTP_outcomes token secret options :
  let w := default 1 (window options) in
  let algorithm := default SHA1 (algorithm options) in
  let digits := default 6 (digits options) in
  let period := default 30 (period options) in
  let timestamp := default now (timestamp options) in
  verifyTOTP createHmac now token secret options = (Return rejected, [])
  \/ (testDigits token = true /\ strlen token = digits /\ 0 <= w
      /\ keyBytes secret = None
      /\ exists message,
           verifyTOTP createHmac now token secret options
           = (Throw message, []))
  \/ (testDigits token = true /\ strlen token = digits /\ 0 <= w
      /\ exists bytes m,
           keyBytes secret = Some bytes
           /\ (m <= Z.to_nat (2 * w + 1))%nat
           /\ hmacCalls (verifyTOTP createHmac now token secret options)
              = map (fun i =>
                       hmacCallAt algorithm bytes period
                         (timestamp + i * period * 1000))
                    (offsets (- w) m)
           /\ (result (verifyTOTP createHmac now token secret options)
               = Return rejected
               \/ exists j,
                    - w <= j <= w
                    /\ result
                         (generateTOTP createHmac now secret
                            (probe algorithm digits period
                               (timestamp + j * period * 1000)))
                       = Return token
                    /\ result (verifyTOTP createHmac now token secret options)
                       = Return (accepted j))).
Proof.
  intros w algorithm digits period timestamp.
  rewrite verifyTOTP_cases. fold w algorithm digits period timestamp.
  destruct (testDigits token) eqn:Hd; cbn [andb]; [| now left].
  destruct (Z.eqb_spec (strlen token) digits) as [Hl | Hl]; [| now left].
  destruct (Z.to_nat (2 * w + 1)) as [| n] eqn:En; [now left |].
  assert (Hw : 0 <= w) by lia.
  destruct (keyBytes secret) as [bytes |] eqn:Hk.
  - right. right. do 3 (split; [first [assumption | reflexivity] |]). exists bytes.
    destruct (verifyLoop_first_match createHmac now token secret bytes
                algorithm digits period timestamp Hk (S n) (- w))
      as [(j & Hj & Hm & _ & Hloop) | (_ & Hloop)]; rewrite Hloop;
      cbn [hmacCalls result fst snd].
    + exists (Z.to_nat (j - - w + 1)).
      split; [reflexivity |]. split; [lia |]. split; [reflexivity |].
      right. exists j. split; [lia |]. split; [exact Hm | reflexivity].
    + exists (S n).
      split; [reflexivity |]. split; [lia |]. split; [reflexivity |].
      now left.
  - right. left. do 3 (split; [first [assumption | reflexivity] |]). split; [reflexivity |].
    now apply verifyLoop_refused.
Qed.

(** A token is declared valid only if it is well formed and is the code
    of an offset of the window; delta is that offset. *)
Theorem X6_verify_valid_is_sound token secret options r :
  result (verifyTOTP createHmac now token secret options) = Return r ->
  valid r = true ->
  exists i,
    delta r = Some i
    /\ - default 1 (window options) <= i <= default 1 (window options)
    /\ testDigits token = true
    /\ strlen token = default 6 (digits options)
    /\ result
         (generateTOTP createHmac now secret
            (probe (default SHA1 (algorithm options))
                   (default 6 (digits options))
                   (default 30 (period options))
                   (default now (timestamp options)
                    + i * default 30 (period options) * 1000)))
       = Return token.
Proof.
  intros Hr Hv.
  destruct (verifyTOTP_outcomes token secret options)
    as [E | [(_ & _ & _ & _ & m & E) | (Hd & Hl & Hw & bytes & m & _ & _ & _ & H)]].
  - rewrite E in Hr. injection Hr as <-. discriminate Hv.
  - rewrite E in Hr. discriminate Hr.
  - destruct H as [E | (j & Hj & Hg & E)]; rewrite E in Hr; injection Hr as <-.
    + discriminate Hv.
    + exists j. auto.
Qed.

(** With a negative window the loop does not run: every token is
    rejected, whatever the secret, and nothing is hashed or thrown. *)
Theorem X7_verify_negative_window token secret options :
  default 1 (window options) < 0 ->
  verifyTOTP createHmac now token secret options = (Return rejected, []).
Proof.
  intros Hw. rewrite verifyTOTP_cases.
  destruct (_ && _); [| reflexivity].
  now replace (Z.to_nat (2 * default 1 (window options) + 1)) with 0%nat by lia.
Qed.

(** With [digits] 0 or negative no token can pass the length test: every
    token is rejected and nothing is hashed. *)
Theorem X8_verify_without_digits token secret options :
  default 6 (digits options) <= 0 ->
  verifyTOTP createHmac now token secret options = (Return rejected, []).
Proof.
  intros Hd. rewrite verifyTOTP_cases.
  destruct (testDigits token) eqn:Ht; cbn [andb]; [| reflexivity].
  destruct (Z.eqb_spec (strlen token) (default 6 (digits options))) as [E |];
    [| reflexivity].
  apply testDigits_nonempty in Ht. destruct token; [discriminate Ht |].
  rewrite strlen_String in E. pose proof (strlen_nonneg token). lia.
Qed.

(** [verifyTOTP] calls the keyed hash at most [2 * window + 1] times, for
    every token and secret. *)
Theorem X9_verify_hashes_at_most_window token secret options :
  0 <= default 1 (window options) ->
  Z.of_nat (length (hmacCalls (verifyTOTP createHmac now token secret options)))
  <= 2 * default 1 (window options) + 1.
Proof.
  intros Hw.
  destruct (verifyTOTP_outcomes token secret options)
    as [E | [(_ & _ & _ & _ & m & E) | (_ & _ & _ & bytes & m & _ & Hm & E & _)]];
    rewrite E; cbn [hmacCalls snd length]; try lia.
  rewrite length_map, offsets_length. lia.
Qed.

(** Every call of the keyed hash is made with the key of the secret, the
    algorithm of the options and the counter of a step of the window,
    [floor(timestamp / (1000 * period)) + i] with [-window <= i <= window]. *)
Theorem X5_verify_hashes_window_counters token secret options call :
  0 < default 30 (period options) ->
  In call (hmacCalls (verifyTOTP createHmac now token secret options)) ->
  exists bytes i,
    keyBytes secret = Some bytes
    /\ - default 1 (window options) <= i <= default 1 (window options)
    /\ call = (default SHA1 (algorithm options), bytes,
               counterBuffer
                 (default now (timestamp options)
                  / (1000 * default 30 (period options)) + i)).
Proof.
  intros Hp Hin.
  destruct (verifyTOTP_outcomes token secret options)
    as [E | [(_ & _ & _ & _ & m & E) | (_ & _ & Hw & bytes & m & Hk & Hm & E & _)]];
    rewrite E in Hin; cbn [hmacCalls snd] in Hin; try contradiction.
  apply in_map_iff in Hin as (i & <- & Hi). apply In_offsets in Hi.
  exists bytes, i. split; [exact Hk |]. split; [lia |].
  unfold hmacCallAt.
  now rewrite counterAt_step, counterAt_floor_ms by exact Hp.
Qed.

(** With a secret that [generateTOTP] accepts, [verifyTOTP] returns a
    result for every token and every option set: it does not throw. *)
Theorem X10_verify_returns_for_accepted_secret token secret bytes options :
  keyBytes secret = Some bytes ->
  exists r, result (verifyTOTP createHmac now token secret options) = Return r.
Proof. apply verifyTOTP_returns. Qed.

End WindowMore.
Section WindowInstances.

Lemma X5_witness :
  0 < default 30 (period (atTimeWindow 1635000000000 1))
  /\ In (SHA1, testKey, counterBuffer (54500000 + -1))
        (hmacCalls (verifyTOTP Crypto.hmac 0 "930202" testSecret
                      (atTimeWindow 1635000000000 1)))
  /\ exists bytes i,
       keyBytes testSecret = Some bytes
       /\ - 1 <= i <= 1
       /\ (SHA1, testKey, counterBuffer (54500000 + -1))
          = (SHA1, bytes, counterBuffer (1635000000000 / (1000 * 30) + i)).
Proof.
  assert (H1 : 0 < default 30 (period (atTimeWindow 1635000000000 1)))
    by (cbn; lia).
  assert (H2 : In (SHA1, testKey, counterBuffer (54500000 + -1))
                  (hmacCalls (verifyTOTP Crypto.hmac 0 "930202" testSecret
                                (atTimeWindow 1635000000000 1))))
    by (vm_compute; left; reflexivity).
  split; [exact H1 |]. split; [exact H2 |].
  exact (X5_verify_hashes_window_counters Crypto.hmac 0 "930202" testSecret
           (atTimeWindow 1635000000000 1) _ H1 H2).
Defined.

Lemma X6_witness :
  result (verifyTOTP Crypto.hmac 0 "504455" testSecret
            (atTimeWindow 1635000000000 1))
  = Return (accepted (-1))
  /\ valid (accepted (-1)) = true
  /\ exists i,
       delta (accepted (-1)) = Some i
       /\ - 1 <= i <= 1
       /\ testDigits "504455" = true
       /\ strlen "504455" = 6
       /\ result (generateTOTP Crypto.hmac 0 testSecret
                    (probe SHA1 6 30 (1635000000000 + i * 30 * 1000)))
          = Return "504455"%string.
Proof.
  assert (H1 : result (verifyTOTP Crypto.hmac 0 "504455" testSecret
                         (atTimeWindow 1635000000000 1))
               = Return (accepted (-1))) by (vm_compute; reflexivity).
  assert (H2 : valid (accepted (-1)) = true) by reflexivity.
  split; [exact H1 |]. split; [exact H2 |].
  exact (X6_verify_valid_is_sound Crypto.hmac 0 "504455" testSecret
           (atTimeWindow 1635000000000 1) (accepted (-1)) H1 H2).
Defined.

Lemma X7_witness :
  default 1 (window (atTimeWindow 1635000000000 (-1))) < 0
  /\ verifyTOTP Crypto.hmac 0 "930202" testSecret
       (atTimeWindow 1635000000000 (-1))
     = (Return rejected, []).
Proof.
  assert (H : default 1 (window (atTimeWindow 1635000000000 (-1))) < 0)
    by (cbn; lia).
  split; [exact H |]. now apply X7_verify_negative_window.
Defined.

Lemma X8_witness :
  default 6 (digits (probe SHA1 0 30 1635000000000)) <= 0
  /\ verifyTOTP Crypto.hmac 0 "0" testSecret (probe SHA1 0 30 1635000000000)
     = (Return rejected, []).
Proof.
  assert (H : default 6 (digits (probe SHA1 0 30 1635000000000)) <= 0)
    by (cbn; lia).
  split; [exact H |]. now apply X8_verify_without_digits.
Defined.

Lemma X9_witness :
  0 <= default 1 (window (atTimeWindow 1635000000000 2))
  /\ Z.of_nat (length (hmacCalls (verifyTOTP Crypto.hmac 0 "000000" testSecret
                                    (atTimeWindow 1635000000000 2))))
     <= 2 * default 1 (window (atTimeWindow 1635000000000 2)) + 1.
Proof.
  assert (H : 0 <= default 1 (window (atTimeWindow 1635000000000 2)))
    by (cbn; lia).
  split; [exact H |]. now apply X9_verify_hashes_at_most_window.
Defined.

Lemma X10_witness :
  keyBytes testSecret = Some testKey
  /\ exists r,
       result (verifyTOTP Crypto.hmac 0 "abc" testSecret (atTime 1635000000000))
       = Return r.
Proof.
  split; [reflexivity |].
  now apply (X10_verify_returns_for_accepted_secret Crypto.hmac 0 "abc"
               testSecret testKey).
Defined.

End WindowInstances.
(** ** More on Base32 texts *)

Section Base32More.
Variable createHmac : HashAlgorithm -> list Z -> list Z -> list Z.
Variable now : Z.

Lemma upperChar_fixed_not_lower c :
  upperChar c = c -> (97 <=? code c) && (code c <=? 122) = false.
Proof.
  destruct c as [[] [] [] [] [] [] [] []]; vm_compute; congruence.
Qed.

Lemma removeChars_strlen p s : strlen (removeChars p s) <= strlen s.
Proof.
  induction s as [| c s IH]; cbn [removeChars]; [lia |].
  destruct (p c); rewrite ?strlen_String; lia.
Qed.

Lemma mapChars_strlen f s : strlen (mapChars f s) = strlen s.
Proof.
  induction s as [| c s IH]; cbn [mapChars]; [reflexivity |].
  now rewrite !strlen_String, IH.
Qed.

(** [normalizeSecret] is idempotent and its result has no ASCII white
    space and no lower-case letter a-z; for a text of ASCII characters the
    result is not longer than the text. *)
Theorem X11_normalizeSecret_normal_form s :
  normalizeSecret (normalizeSecret s) = normalizeSecret s
  /\ (forall c, occursIn c (normalizeSecret s) ->
                isWhitespace c = false
                /\ (97 <=? code c) && (code c <=? 122) = false)
  /\ (allChars isAscii s = true ->
      strlen (normalizeSecret s) <= strlen s).
Proof.
  split; [apply normalizeSecret_idempotent |]. split.
  - intros c Hc. destruct (normalizeSecret_chars s c Hc) as [Hw Hu].
    split; [exact Hw | now apply upperChar_fixed_not_lower].
  - intros _. unfold normalizeSecret, toUpperCase. rewrite mapChars_strlen.
    apply removeChars_strlen.
Qed.

(** What [decodeBase32] returns is an array of bytes, and it returns only
    for a normalized text that has a symbol and symbols of the alphabet
    only. *)
Theorem X12_decoded_key_is_bytes base32 bytes :
  decodeBase32 base32 = Return bytes ->
  Forall (fun b => 0 <= b < 256) bytes
  /\ normalizedKey base32 <> EmptyString
  /\ forall c, occursIn c (normalizedKey base32) -> indexOf alphabet c <> -1.
Proof.
  rewrite decodeBase32_cases. cbv zeta.
  destruct (isEmpty (normalizedKey base32)) eqn:He; [discriminate |].
  destruct (allChars isBase32Char (normalizedKey base32)) eqn:Ha;
    [| discriminate].
  intros [= <-]. split; [| split].
  - apply List.Forall_forall. intros b Hb. unfold wholeBytes in Hb.
    eapply be_bytes_range, Hb.
  - intros E. apply isEmpty_true in E. congruence.
  - intros c Hc. apply isBase32Char_alphabet.
    now apply (proj1 (allChars_true _ _) Ha).
Qed.

Lemma be_bytes_nil n x : Crypto.be_bytes n x = [] -> n = 0%nat.
Proof.
  intros H. apply (f_equal (@length Z)) in H.
  now rewrite be_bytes_length in H.
Qed.

(** [decodeBase32] returns the empty key exactly for the texts that
    normalize to one symbol of the alphabet; [generateTOTP] takes such a
    secret like the empty array of raw bytes. *)
Theorem X13_one_symbol_decodes_to_empty_key base32 options :
  (decodeBase32 base32 = Return []
   <-> strlen (normalizedKey base32) = 1
       /\ testBase32 (normalizedKey base32) = true)
  /\ (decodeBase32 base32 = Return [] ->
      base32 <> EmptyString /\
      generateTOTP createHmac now (TextSecret base32) options
      = generateTOTP createHmac now (RawSecret []) options).
Proof.
  assert (Hiff : decodeBase32 base32 = Return []
                 <-> strlen (normalizedKey base32) = 1
                     /\ testBase32 (normalizedKey base32) = true).
  { rewrite decodeBase32_cases. cbv zeta. unfold testBase32.
    destruct (isEmpty (normalizedKey base32)) eqn:He.
    - apply isEmpty_true in He. rewrite He. split; [discriminate |].
      intros [H _]. discriminate H.
    - cbn [negb andb].
      destruct (allChars isBase32Char (normalizedKey base32)) eqn:Ha.
      + pose proof (strlen_nonneg (normalizedKey base32)) as Hn.
        assert (Hpos : strlen (normalizedKey base32) <> 0).
        { rewrite <- Z.eqb_neq, strlen_zero. congruence. }
        split.
        * intros [= H]. apply be_bytes_nil in H. split; [| reflexivity].
          assert (0 <= 5 * strlen (normalizedKey base32) / 8)
            by (apply Z.div_pos; lia).
          assert (5 * strlen (normalizedKey base32) / 8 = 0) by lia.
          Z.div_mod_to_equations. lia.
        * intros [H _]. unfold wholeBytes. rewrite H. reflexivity.
      + split; [discriminate | intros [_ H]; discriminate H]. }
  split; [exact Hiff |].
  intros Hdec.
  assert (Hne : base32 <> EmptyString) by (intros ->; discriminate Hdec).
  split; [exact Hne |].
  rewrite (generateTOTP_accepted createHmac now (TextSecret base32) options []).
  - now rewrite (generateTOTP_accepted createHmac now (RawSecret []) options []).
  - cbn [keyBytes]. destruct (isEmpty base32) eqn:He.
    + apply isEmpty_true in He. contradiction.
    + now rewrite Hdec.
Qed.

End Base32More.

Lemma X11_witness :
  allChars isAscii "jbsw y3dp" = true
  /\ strlen (normalizeSecret "jbsw y3dp") <= strlen "jbsw y3dp".
Proof.
  assert (H : allChars isAscii "jbsw y3dp" = true)
    by (vm_compute; reflexivity).
  split; [exact H |].
  exact (proj2 (proj2 (X11_normalizeSecret_normal_form "jbsw y3dp")) H).
Defined.

Lemma X12_witness :
  decodeBase32 "mzxw 6ytb" = Return [102; 111; 111; 98; 97]
  /\ Forall (fun b => 0 <= b < 256) [102; 111; 111; 98; 97]
  /\ normalizedKey "mzxw 6ytb" <> EmptyString
  /\ forall c, occursIn c (normalizedKey "mzxw 6ytb") ->
               indexOf alphabet c <> -1.
Proof.
  assert (H : decodeBase32 "mzxw 6ytb" = Return [102; 111; 111; 98; 97])
    by (vm_compute; reflexivity).
  split; [exact H |].
  exact (X12_decoded_key_is_bytes "mzxw 6ytb" _ H).
Defined.

Lemma X13_witness :
  decodeBase32 "a==" = Return []
  /\ "a=="%string <> EmptyString
  /\ generateTOTP Crypto.hmac 0 (TextSecret "a==") (atTime 1635000000000)
     = generateTOTP Crypto.hmac 0 (RawSecret []) (atTime 1635000000000).
Proof.
  assert (H : decodeBase32 "a==" = Return []) by (vm_compute; reflexivity).
  split; [exact H |].
  exact (proj2 (X13_one_symbol_decodes_to_empty_key Crypto.hmac 0 "a=="
                  (atTime 1635000000000)) H).
Defined.
Section Base32Blocks.

Lemma isBase32Char_plain c :
  isBase32Char c = true ->
  isWhitespace c = false /\ upperChar c = c /\ Ascii.eqb c "=" = false.
Proof.
  destruct c as [[] [] [] [] [] [] [] []]; vm_compute; intros H;
    try discriminate H; repeat split.
Qed.

Lemma stripTrailingEquals_plain s :
  (forall c, occursIn c s -> Ascii.eqb c "=" = false) ->
  stripTrailingEquals s = s.
Proof.
  induction s as [| c s IH]; intros H; cbn [stripTrailingEquals];
    [reflexivity |].
  rewrite (H c) by now left. cbn [andb].
  rewrite IH; [reflexivity |]. intros d Hd. apply H. now right.
Qed.

(** A text of symbols of the alphabet is its own normalized text. *)
Lemma normalizedKey_plain s :
  allChars isBase32Char s = true -> normalizedKey s = s.
Proof.
  intros Ha. pose proof (proj1 (allChars_true _ _) Ha) as H.
  unfold normalizedKey. rewrite normalizeSecret_fixed.
  - apply stripTrailingEquals_plain. intros c Hc.
    now destruct (isBase32Char_plain c (H c Hc)) as (_ & _ & He).
  - intros c Hc. now destruct (isBase32Char_plain c (H c Hc)) as (Hw & Hu & _).
Qed.

Lemma bitStreamFrom_append k1 : forall acc k2,
  bitStreamFrom acc (k1 ++ k2)%string
  = bitStreamFrom (bitStreamFrom acc k1) k2.
Proof.
  induction k1 as [| c k1 IH]; intros acc k2; cbn [String.append bitStreamFrom];
    [reflexivity | apply IH].
Qed.

Lemma bitStreamFrom_acc k : forall acc,
  bitStreamFrom acc k = acc * 32 ^ strlen k + bitStream k.
Proof.
  unfold bitStream.
  induction k as [| c k IH]; intros acc; cbn [bitStreamFrom].
  - change (strlen "") with 0. lia.
  - rewrite (IH (acc * 32 + _)), (IH (0 * 32 + _)), strlen_String.
    rewrite Z.pow_add_r by (pose proof (strlen_nonneg k); lia). ring.
Qed.

Lemma bitStream_range k :
  allChars isBase32Char k = true -> 0 <= bitStream k < 32 ^ strlen k.
Proof.
  induction k as [| c k IH]; cbn [allChars]; intros Ha.
  - vm_compute. split; congruence.
  - apply andb_true_iff in Ha as [Hc Ha]. specialize (IH Ha).
    pose proof (indexOf_alphabet c Hc) as Hx.
    unfold bitStream. cbn [bitStreamFrom].
    rewrite bitStreamFrom_acc, strlen_String.
    rewrite Z.pow_add_r by (pose proof (strlen_nonneg k); lia).
    change (32 ^ 1) with 32. nia.
Qed.

Lemma be_bytes_app q : forall m x y,
  0 <= y < 2 ^ (8 * Z.of_nat q) ->
  Crypto.be_bytes (m + q) (x * 2 ^ (8 * Z.of_nat q) + y)
  = Crypto.be_bytes m x ++ Crypto.be_bytes q y.
Proof.
  induction q as [| q IH]; intros m x y Hy.
  - change (2 ^ (8 * Z.of_nat 0)) with 1 in *.
    replace (m + 0)%nat with m by lia. cbn [Crypto.be_bytes].
    rewrite app_nil_r. f_equal. lia.
  - replace (m + S q)%nat with (S (m + q)) by lia.
    rewrite !be_bytes_S, app_assoc.
    assert (E : 2 ^ (8 * Z.of_nat (S q)) = 2 ^ (8 * Z.of_nat q) * 256).
    { replace (8 * Z.of_nat (S q)) with (8 * Z.of_nat q + 8) by lia.
      rewrite Z.pow_add_r by lia. reflexivity. }
    rewrite E in *.
    assert (Hp : 0 < 2 ^ (8 * Z.of_nat q)) by (apply Z.pow_pos_nonneg; lia).
    replace (x * (2 ^ (8 * Z.of_nat q) * 256) + y)
      with (y + (x * 2 ^ (8 * Z.of_nat q)) * 256) by ring.
    rewrite Z.div_add, Z_mod_plus_full by lia.
    rewrite <- (IH m x (y / 256)).
    + do 2 f_equal. ring.
    + split; [apply Z.div_pos; lia | apply Z.div_lt_upper_bound; lia].
Qed.

Lemma wholeBytes_append k1 k2 :
  allChars isBase32Char k2 = true ->
  strlen k1 mod 8 = 0 ->
  wholeBytes (k1 ++ k2)%string = wholeBytes k1 ++ wholeBytes k2.
Proof.
  intros Ha H8. unfold wholeBytes. cbv zeta.
  rewrite strlen_append. unfold bitStream at 1.
  rewrite bitStreamFrom_append, bitStreamFrom_acc. fold (bitStream k1).
  pose proof (strlen_nonneg k1) as Hn1. pose proof (strlen_nonneg k2) as Hn2.
  pose proof (bitStream_range k2 Ha) as Hr.
  set (n1 := strlen k1) in *. set (n2 := strlen k2) in *.
  set (q := 5 * n2 / 8). set (r := (5 * n2) mod 8).
  assert (Hq : 0 <= q) by (apply Z.div_pos; lia).
  assert (Hrr : 0 <= r < 8) by (apply Z.mod_pos_bound; lia).
  assert (E1 : (5 * (n1 + n2)) mod 8 = r)
    by (subst r; Z.div_mod_to_equations; lia).
  assert (E2 : (5 * n1) mod 8 = 0) by (Z.div_mod_to_equations; lia).
  assert (E3 : Z.to_nat (5 * (n1 + n2) / 8)
               = (Z.to_nat (5 * n1 / 8) + Z.to_nat q)%nat).
  { rewrite <- Z2Nat.inj_add by (try apply Z.div_pos; lia). f_equal.
    subst q. Z.div_mod_to_equations. lia. }
  rewrite E1, E2, E3. change (2 ^ 0) with 1. rewrite Z.div_1_r.
  assert (E4 : 32 ^ n2 = 2 ^ (8 * Z.of_nat (Z.to_nat q)) * 2 ^ r).
  { change 32 with (2 ^ 5). rewrite <- Z.pow_mul_r, <- Z.pow_add_r by lia.
    f_equal. rewrite Z2Nat.id by lia. subst q r.
    Z.div_mod_to_equations. lia. }
  assert (Hp : 0 < 2 ^ r) by (apply Z.pow_pos_nonneg; lia).
  assert (Hpq : 0 < 2 ^ (8 * Z.of_nat (Z.to_nat q)))
    by (apply Z.pow_pos_nonneg; lia).
  rewrite E4 in *.
  replace (bitStream k1 * (2 ^ (8 * Z.of_nat (Z.to_nat q)) * 2 ^ r)
           + bitStream k2)
    with (bitStream k2
          + (bitStream k1 * 2 ^ (8 * Z.of_nat (Z.to_nat q))) * 2 ^ r) by ring.
  rewrite Z.div_add by lia.
  rewrite (Z.add_comm (bitStream k2 / 2 ^ r)).
  apply be_bytes_app.
  split; [apply Z.div_pos; lia | apply Z.div_lt_upper_bound; nia].
Qed.

(** Decoding goes block by block: behind a text of a multiple of 8
    symbols (a whole number of 5-byte groups) the bytes of a second text
    follow those of the first. *)
Theorem X14_decode_of_blocks k1 k2 :
  testBase32 k1 = true ->
  testBase32 k2 = true ->
  strlen k1 mod 8 = 0 ->
  exists b1 b2,
    decodeBase32 k1 = Return b1
    /\ decodeBase32 k2 = Return b2
    /\ decodeBase32 (k1 ++ k2)%string = Return (b1 ++ b2).
Proof.
  unfold testBase32. intros H1 H2 H8.
  apply andb_true_iff in H1 as [He1 Ha1].
  apply andb_true_iff in H2 as [He2 Ha2].
  apply negb_true_iff in He1, He2.
  assert (Ha : allChars isBase32Char (k1 ++ k2)%string = true)
    by now rewrite allChars_append, Ha1, Ha2.
  assert (He : isEmpty (k1 ++ k2)%string = false)
    by (destruct k1; [discriminate He1 | reflexivity]).
  exists (wholeBytes k1), (wholeBytes k2).
  rewrite !decodeBase32_cases. cbv zeta.
  rewrite !normalizedKey_plain by assumption.
  rewrite He1, He2, He, Ha1, Ha2, Ha.
  repeat split. now rewrite wholeBytes_append.
Qed.

End Base32Blocks.

Lemma X14_witness :
  testBase32 "JBSWY3DP" = true
  /\ testBase32 "EHPK3PXP" = true
  /\ strlen "JBSWY3DP" mod 8 = 0
  /\ exists b1 b2,
       decodeBase32 "JBSWY3DP" = Return b1
       /\ decodeBase32 "EHPK3PXP" = Return b2
       /\ decodeBase32 ("JBSWY3DP" ++ "EHPK3PXP")%string = Return (b1 ++ b2).
Proof.
  assert (H1 : testBase32 "JBSWY3DP" = true) by (vm_compute; reflexivity).
  assert (H2 : testBase32 "EHPK3PXP" = true) by (vm_compute; reflexivity).
  assert (H3 : strlen "JBSWY3DP" mod 8 = 0) by (vm_compute; reflexivity).
  split; [exact H1 |]. split; [exact H2 |]. split; [exact H3 |].
  exact (X14_decode_of_blocks "JBSWY3DP" "EHPK3PXP" H1 H2 H3).
Defined.
(** ** generateRandomSecret *)

Section RandomSecret.
Variable createHmac : HashAlgorithm -> list Z -> list Z -> list Z.
Variable now : Z.

Lemma append_assoc_string (a b c : string) :
  ((a ++ b) ++ c = a ++ (b ++ c))%string.
Proof. induction a as [| x a IH]; cbn [String.append]; congruence. Qed.

(** The 32 indices give the 32 symbols of the alphabet of the decoder. *)
Lemma charAtIndex_symbol k :
  0 <= k < 32 ->
  exists c,
    charAtIndex base32Chars k = String c EmptyString
    /\ isBase32Char c = true
    /\ indexOf alphabet c = k.
Proof.
  intros Hk.
  assert (Hn : exists n, k = Z.of_nat n /\ (n < 32)%nat)
    by (exists (Z.to_nat k); lia).
  destruct Hn as (n & -> & Hn). clear Hk.
  do 32 (destruct n as [| n];
         [eexists; vm_compute; repeat split; reflexivity |]).
  lia.
Qed.

Lemma randomSecretLoop_spec randomBytes :
  Forall (fun b => 0 <= b < 256) randomBytes ->
  forall acc,
  exists s,
    randomSecretLoop randomBytes acc = (acc ++ s)%string
    /\ strlen s = Z.of_nat (length randomBytes)
    /\ allChars isBase32Char s = true
    /\ map (indexOf alphabet) (list_ascii_of_string s)
       = map (fun b => b mod 32) randomBytes.
Proof.
  induction 1 as [| b rest Hb _ IH]; intros acc.
  - exists EmptyString. cbn [randomSecretLoop]. repeat split.
    induction acc as [| c acc IHa]; cbn [String.append]; congruence.
  - cbn [randomSecretLoop]. change (strlen base32Chars) with 32.
    rewrite Z.rem_mod_nonneg by lia.
    destruct (charAtIndex_symbol (b mod 32)) as (c & Ec & Hc & Hi);
      [apply Z.mod_pos_bound; lia |].
    rewrite Ec.
    destruct (IH (acc ++ String c EmptyString)%string)
      as (s & Es & Hl & Ha & Hm).
    exists (String c s). rewrite Es, append_assoc_string.
    cbn [String.append list_ascii_of_string map allChars length].
    rewrite strlen_String, Hl, Hc, Ha, Hi, Hm.
    repeat split. lia.
Qed.

Lemma generateRandomSecret_spec randomBytes :
  Forall (fun b => 0 <= b < 256) randomBytes ->
  strlen (generateRandomSecret randomBytes) = Z.of_nat (length randomBytes)
  /\ allChars isBase32Char (generateRandomSecret randomBytes) = true
  /\ map (indexOf alphabet)
         (list_ascii_of_string (generateRandomSecret randomBytes))
     = map (fun b => b mod 32) randomBytes.
Proof.
  intros Hb. unfold generateRandomSecret.
  destruct (randomSecretLoop_spec randomBytes Hb EmptyString)
    as (s & -> & H).
  exact H.
Qed.

(** A generated secret has one symbol per random byte, each of the
    alphabet A-Z2-7, and is its own normalized text. *)
Theorem X15_random_secret_shape randomBytes :
  Forall (fun b => 0 <= b < 256) randomBytes ->
  strlen (generateRandomSecret randomBytes) = Z.of_nat (length randomBytes)
  /\ allChars isBase32Char (generateRandomSecret randomBytes) = true
  /\ normalizedKey (generateRandomSecret randomBytes)
     = generateRandomSecret randomBytes.
Proof.
  intros Hb. destruct (generateRandomSecret_spec randomBytes Hb) as (Hl & Ha & _).
  split; [exact Hl |]. split; [exact Ha |]. now apply normalizedKey_plain.
Qed.

(** A generated secret of [n >= 1] symbols is accepted by [decodeBase32]
    and by [generateTOTP]; its key has [floor(5n/8)] bytes, not [n]. *)
Theorem X16_random_secret_is_accepted randomBytes options :
  Forall (fun b => 0 <= b < 256) randomBytes ->
  randomBytes <> [] ->
  exists key codeText,
    decodeBase32 (generateRandomSecret randomBytes) = Return key
    /\ Z.of_nat (length key) = 5 * Z.of_nat (length randomBytes) / 8
    /\ result (generateTOTP createHmac now
                 (TextSecret (generateRandomSecret randomBytes)) options)
       = Return codeText.
Proof.
  intros Hb Hne.
  destruct (generateRandomSecret_spec randomBytes Hb) as (Hl & Ha & _).
  set (secret := generateRandomSecret randomBytes) in *.
  assert (He : isEmpty secret = false).
  { destruct secret; [| reflexivity]. change (strlen "") with 0 in Hl.
    destruct randomBytes; [contradiction | discriminate Hl]. }
  assert (Hdec : decodeBase32 secret = Return (wholeBytes secret)).
  { rewrite decodeBase32_cases. cbv zeta.
    now rewrite normalizedKey_plain, He, Ha by exact Ha. }
  exists (wholeBytes secret).
  assert (Hk : keyBytes (TextSecret secret) = Some (wholeBytes secret))
    by (cbn [keyBytes]; now rewrite He, Hdec).
  rewrite (generateTOTP_accepted createHmac now _ options _ Hk),
    generateHOTP_unfold.
  eexists. split; [exact Hdec |]. split; [| reflexivity].
  unfold wholeBytes. cbv zeta. rewrite be_bytes_length, Hl, Z2Nat.id.
  - reflexivity.
  - apply Z.div_pos; lia.
Qed.

Lemma map_mod_32_bytes randomBytes :
  Forall (fun b => 0 <= b < 256) (map (fun b => b mod 32) randomBytes).
Proof.
  induction randomBytes as [| b rest IH]; cbn [map]; constructor; [| exact IH].
  pose proof (Z.mod_pos_bound b 32). lia.
Qed.

Lemma randomSecretLoop_low_bits randomBytes :
  Forall (fun b => 0 <= b < 256) randomBytes ->
  forall acc,
    randomSecretLoop (map (fun b => b mod 32) randomBytes) acc
    = randomSecretLoop randomBytes acc.
Proof.
  induction 1 as [| b rest Hb _ IH]; intros acc; [reflexivity |].
  cbn [map randomSecretLoop]. change (strlen base32Chars) with 32.
  rewrite !Z.rem_mod_nonneg, Z.mod_mod, IH by
    (try apply Z.mod_pos_bound; lia).
  reflexivity.
Qed.

(** Symbol [i] is the one with index [byte i mod 32]: five bits of each
    random byte are used, the other three do not count. *)
Theorem X17_random_secret_uses_low_five_bits randomBytes :
  Forall (fun b => 0 <= b < 256) randomBytes ->
  map (indexOf alphabet)
      (list_ascii_of_string (generateRandomSecret randomBytes))
  = map (fun b => b mod 32) randomBytes
  /\ generateRandomSecret (map (fun b => b mod 32) randomBytes)
     = generateRandomSecret randomBytes.
Proof.
  intros Hb. split.
  - now apply generateRandomSecret_spec.
  - now apply randomSecretLoop_low_bits.
Qed.

End RandomSecret.

Lemma X15_witness :
  Forall (fun b => 0 <= b < 256) [0; 31; 32; 255; 100]
  /\ strlen (generateRandomSecret [0; 31; 32; 255; 100]) = 5
  /\ allChars isBase32Char (generateRandomSecret [0; 31; 32; 255; 100]) = true
  /\ normalizedKey (generateRandomSecret [0; 31; 32; 255; 100])
     = generateRandomSecret [0; 31; 32; 255; 100].
Proof.
  assert (H : Forall (fun b => 0 <= b < 256) [0; 31; 32; 255; 100])
    by (repeat constructor; lia).
  split; [exact H |].
  exact (X15_random_secret_shape [0; 31; 32; 255; 100] H).
Defined.

Lemma X16_witness :
  Forall (fun b => 0 <= b < 256) [0; 31; 32; 255; 100]
  /\ [0; 31; 32; 255; 100] <> []
  /\ exists key codeText,
       decodeBase32 (generateRandomSecret [0; 31; 32; 255; 100]) = Return key
       /\ Z.of_nat (length key) = 5 * 5 / 8
       /\ result (generateTOTP Crypto.hmac 0
                    (TextSecret (generateRandomSecret [0; 31; 32; 255; 100]))
                    (atTime 1635000000000))
          = Return codeText.
Proof.
  assert (H : Forall (fun b => 0 <= b < 256) [0; 31; 32; 255; 100])
    by (repeat constructor; lia).
  assert (Hne : [0; 31; 32; 255; 100] <> []) by discriminate.
  split; [exact H |]. split; [exact Hne |].
  exact (X16_random_secret_is_accepted Crypto.hmac 0 [0; 31; 32; 255; 100]
           (atTime 1635000000000) H Hne).
Defined.

Lemma X17_witness :
  Forall (fun b => 0 <= b < 256) [0; 31; 32; 255; 100]
  /\ map (indexOf alphabet)
         (list_ascii_of_string (generateRandomSecret [0; 31; 32; 255; 100]))
     = map (fun b => b mod 32) [0; 31; 32; 255; 100]
  /\ generateRandomSecret (map (fun b => b mod 32) [0; 31; 32; 255; 100])
     = generateRandomSecret [0; 31; 32; 255; 100].
Proof.
  assert (H : Forall (fun b => 0 <= b < 256) [0; 31; 32; 255; 100])
    by (repeat constructor; lia).
  split; [exact H |].
  exact (X17_random_secret_uses_low_five_bits [0; 31; 32; 255; 100] H).
Defined.
(** ** The command line *)

Section CliOptionsFacts.

(** One option keeps the ranges that the options before it have. *)
Lemma parseOption_ranges options arg options' :
  parseOption options arg = Parsed options' ->
  (default 6 (cliDigits options) = 6 \/ default 6 (cliDigits options) = 8) ->
  1 <= default 30 (cliPeriod options) ->
  1 <= default 1 (cliWindow options) ->
  (default 6 (cliDigits options') = 6 \/ default 6 (cliDigits options') = 8)
  /\ 1 <= default 30 (cliPeriod options')
  /\ 1 <= default 1 (cliWindow options').
Proof.
  unfold parseOption. intros H Hd Hp Hw.
  repeat match type of H with
         | context [match ?x with _ => _ end] =>
             let E := fresh "E" in destruct x eqn:E
         end;
    try discriminate H; injection H as <-;
    cbn [cliDigits cliPeriod cliWindow default from_option id];
    repeat split; try assumption; lia.
Qed.

Lemma parseOptionsFrom_ranges args : forall options options',
  parseOptionsFrom options args = Parsed options' ->
  (default 6 (cliDigits options) = 6 \/ default 6 (cliDigits options) = 8) ->
  1 <= default 30 (cliPeriod options) ->
  1 <= default 1 (cliWindow options) ->
  (default 6 (cliDigits options') = 6 \/ default 6 (cliDigits options') = 8)
  /\ 1 <= default 30 (cliPeriod options')
  /\ 1 <= default 1 (cliWindow options').
Proof.
  induction args as [| arg rest IH]; intros options options' H Hd Hp Hw;
    cbn [parseOptionsFrom] in H.
  - injection H as <-. auto.
  - destruct (parseOption options arg) as [o1 | m] eqn:E; [| discriminate H].
    destruct (parseOption_ranges _ _ _ E Hd Hp Hw) as (Hd1 & Hp1 & Hw1).
    now apply (IH o1).
Qed.

(** The options that [parseOptions] lets through give [generateTOTP] and
    [verifyTOTP] 6 or 8 digits, a period and a window of at least 1, and no
    time stamp: from the command line the window cannot be 0. *)
Theorem X18_parsed_options_are_in_range args options :
  parseOptions args = Parsed options ->
  (default 6 (digits (totpOptions options)) = 6
   \/ default 6 (digits (totpOptions options)) = 8)
  /\ 1 <= default 30 (period (totpOptions options))
  /\ 1 <= default 1 (window (totpOptions options))
  /\ timestamp (totpOptions options) = None.
Proof.
  intros H.
  destruct (parseOptionsFrom_ranges args noOptions options H)
    as (Hd & Hp & Hw); cbn; try lia; auto.
Qed.

End CliOptionsFacts.

Lemma X18_witness :
  parseOptions ["--digits=8"; "JBSWY3DPEHPK3PXP"; "--window=3"]%string
  = Parsed {| cliAlgorithm := None; cliDigits := Some 8; cliPeriod := None;
              cliWindow := Some 3; cliIssuer := None; cliAccount := None |}
  /\ (8 = 6 \/ 8 = 8) /\ 1 <= 30 /\ 1 <= 3 /\ @None Z = None.
Proof.
  assert (H : parseOptions
                ["--digits=8"; "JBSWY3DPEHPK3PXP"; "--window=3"]%string
              = Parsed {| cliAlgorithm := None; cliDigits := Some 8;
                          cliPeriod := None; cliWindow := Some 3;
                          cliIssuer := None; cliAccount := None |})
    by (vm_compute; reflexivity).
  split; [exact H |].
  exact (X18_parsed_options_are_in_range _ _ H).
Defined.
Section CliArguments.
Variable createHmac : HashAlgorithm -> list Z -> list Z -> list Z.
Variable now : Z.
Variable randomBytes : Z -> list Z.
Variable qrcodeCommand : string -> string -> string -> option string -> CliRun.

(** An argument that is not an option leaves the options as they are. *)
Lemma parseOption_positional options arg :
  startsWith arg "--" = false -> parseOption options arg = Parsed options.
Proof. intros H. unfold parseOption. now rewrite H. Qed.

Lemma parseOptionsFrom_filter args : forall options,
  parseOptionsFrom options (List.filter (fun arg => startsWith arg "--") args)
  = parseOptionsFrom options args.
Proof.
  induction args as [| arg rest IH]; intros options; [reflexivity |].
  cbn [List.filter parseOptionsFrom].
  destruct (startsWith arg "--") eqn:E.
  - cbn [parseOptionsFrom].
    destruct (parseOption options arg); [apply IH | reflexivity].
  - rewrite parseOption_positional by exact E. apply IH.
Qed.

Lemma parseOptionsFrom_positional args : forall options,
  Forall (fun arg => startsWith arg "--" = false) args ->
  parseOptionsFrom options args = Parsed options.
Proof.
  induction args as [| arg rest IH]; intros options H; [reflexivity |].
  apply Forall_cons_1 in H as [Ha Hr]. cbn [parseOptionsFrom].
  rewrite parseOption_positional by exact Ha. now apply IH.
Qed.

Lemma parseOptionsFrom_app args1 : forall options args2,
  parseOptionsFrom options (args1 ++ args2)
  = match parseOptionsFrom options args1 with
    | Parsed options' => parseOptionsFrom options' args2
    | Failed message => Failed message
    end.
Proof.
  induction args1 as [| arg rest IH]; intros options args2; [reflexivity |].
  cbn [app parseOptionsFrom].
  destruct (parseOption options arg); [apply IH | reflexivity].
Qed.

Lemma getNoOptionArgs_positional args :
  Forall (fun arg => startsWith arg "--" = false) (getNoOptionArgs args).
Proof.
  unfold getNoOptionArgs. induction args as [| arg rest IH]; cbn [List.filter];
    [constructor |].
  destruct (startsWith arg "--") eqn:E; cbn [negb]; [exact IH |].
  now constructor.
Qed.

Lemma getNoOptionArgs_reordered args :
  getNoOptionArgs
    (getNoOptionArgs args ++ List.filter (fun arg => startsWith arg "--") args)
  = getNoOptionArgs args.
Proof.
  unfold getNoOptionArgs. rewrite List.filter_app.
  replace (List.filter (fun arg => negb (startsWith arg "--"))
             (List.filter (fun arg => startsWith arg "--") args))
    with (@nil string).
  - rewrite app_nil_r.
    induction args as [| arg rest IH]; cbn [List.filter]; [reflexivity |].
    destruct (startsWith arg "--") eqn:E; cbn [negb List.filter]; [exact IH |].
    rewrite E. cbn [negb]. now rewrite IH.
  - induction args as [| arg rest IH]; cbn [List.filter]; [reflexivity |].
    destruct (startsWith arg "--") eqn:E; [| exact IH].
    cbn [List.filter]. rewrite E. exact IH.
Qed.

(** Options and other arguments may come in any mixture behind the
    command: a run is the run with the other arguments first, in their order,
    and the options behind them, in theirs. *)
Theorem X19_options_may_stand_anywhere command rest :
  main createHmac now randomBytes qrcodeCommand (command :: rest)
  = main createHmac now randomBytes qrcodeCommand
      (command :: getNoOptionArgs rest
               ++ List.filter (fun arg => startsWith arg "--") rest).
Proof.
  unfold main. cbn [nth_error tl].
  rewrite getNoOptionArgs_reordered.
  unfold parseOptions.
  rewrite parseOptionsFrom_app,
    (parseOptionsFrom_positional _ _ (getNoOptionArgs_positional rest)),
    parseOptionsFrom_filter.
  reflexivity.
Qed.

(** An option that [parseOptions] refuses ends every command but help
    with its message and exit code 1, whether the command reads the option
    or not, and before the command is looked at. *)
Theorem X20_refused_option_ends_the_run command rest message :
  command <> EmptyString ->
  command <> "help"%string ->
  command <> "--help"%string ->
  parseOptions rest = Failed message ->
  main createHmac now randomBytes qrcodeCommand (command :: rest)
  = {| stdout := []; stderr := [message]; exitCode := 1 |}.
Proof.
  intros He Hh1 Hh2 Hp. unfold main. cbn [nth_error tl present].
  destruct (isEmpty command) eqn:E; [apply isEmpty_true in E; contradiction |].
  apply String.eqb_neq in Hh1, Hh2. now rewrite Hh1, Hh2, Hp.
Qed.

End CliArguments.

Lemma X20_witness :
  "create-secret"%string <> EmptyString
  /\ "create-secret"%string <> "help"%string
  /\ "create-secret"%string <> "--help"%string
  /\ parseOptions ["--window=0"]%string
     = Failed "Invalid window: must be a positive number"
  /\ main Crypto.hmac 0 (fun n => repeat 0 (Z.to_nat n))
       (fun _ _ _ _ => {| stdout := []; stderr := []; exitCode := 0 |})
       ["create-secret"; "--window=0"]%string
     = {| stdout := [];
          stderr := ["Invalid window: must be a positive number"%string];
          exitCode := 1 |}.
Proof.
  assert (H1 : "create-secret"%string <> EmptyString) by discriminate.
  assert (H2 : "create-secret"%string <> "help"%string) by discriminate.
  assert (H3 : "create-secret"%string <> "--help"%string) by discriminate.
  assert (H4 : parseOptions ["--window=0"]%string
               = Failed "Invalid window: must be a positive number")
    by (vm_compute; reflexivity).
  repeat (split; [assumption |]).
  exact (X20_refused_option_ends_the_run Crypto.hmac 0 _ _ _ _ _ H1 H2 H3 H4).
Defined.
Section CliCommands.
Variable createHmac : HashAlgorithm -> list Z -> list Z -> list Z.
Variable now : Z.
Variable randomBytes : Z -> list Z.
Variable qrcodeCommand : string -> string -> string -> option string -> CliRun.

Lemma main_command command rest options :
  command <> EmptyString ->
  command <> "help"%string ->
  command <> "--help"%string ->
  parseOptions rest = Parsed options ->
  main createHmac now randomBytes qrcodeCommand (command :: rest)
  = if String.eqb command "generate" then
      generateCommand createHmac now (getNoOptionArgs rest) options
    else if String.eqb command "verify" then
      verifyCommand createHmac now (getNoOptionArgs rest) options
    else if String.eqb command "qrcode" then
      qrcodeArguments qrcodeCommand (getNoOptionArgs rest) options
    else if String.eqb command "create-secret" then
      createSecretCommand randomBytes (getNoOptionArgs rest)
    else
      {| stdout := [usageText];
         stderr := [("Unknown command: " ++ command)%string];
         exitCode := 1 |}.
Proof.
  intros He Hh1 Hh2 Hp. unfold main. cbn [nth_error tl present].
  destruct (isEmpty command) eqn:E; [apply isEmpty_true in E; contradiction |].
  apply String.eqb_neq in Hh1, Hh2. now rewrite Hh1, Hh2, Hp.
Qed.

Lemma main_refused command rest message :
  command <> EmptyString ->
  command <> "help"%string ->
  command <> "--help"%string ->
  parseOptions rest = Failed message ->
  main createHmac now randomBytes qrcodeCommand (command :: rest)
  = failure message.
Proof.
  intros He Hh1 Hh2 Hp. unfold main. cbn [nth_error tl present].
  destruct (isEmpty command) eqn:E; [apply isEmpty_true in E; contradiction |].
  apply String.eqb_neq in Hh1, Hh2. now rewrite Hh1, Hh2, Hp.
Qed.

Lemma present_Some arg text :
  present arg = Some text <-> arg = Some text /\ text <> EmptyString.
Proof.
  unfold present. destruct arg as [s |].
  - destruct (isEmpty s) eqn:E.
    + apply isEmpty_true in E. subst s. split; [discriminate |].
      intros [[= <-] H]. contradiction.
    + split.
      * intros [= <-]. split; [reflexivity |]. intros ->. discriminate E.
      * intros [[= ->] _]. reflexivity.
  - split; [discriminate | intros [H _]; discriminate H].
Qed.

(** [verify] ends with exit code 0 exactly when the options are let
    through, a code and a secret are given and [verifyTOTP] returns a valid
    result; every other run of it ends with exit code 1. *)
Theorem X21_verify_exit_code rest :
  let run := main createHmac now randomBytes qrcodeCommand
               ("verify"%string :: rest) in
  (exitCode run = 0 \/ exitCode run = 1)
  /\ (exitCode run = 0
      <-> exists options code secret r,
            parseOptions rest = Parsed options
            /\ present (nth_error (getNoOptionArgs rest) 0) = Some code
            /\ present (nth_error (getNoOptionArgs rest) 1) = Some secret
            /\ result (verifyTOTP createHmac now code (TextSecret secret)
                         (totpOptions options))
               = Return r
            /\ valid r = true).
Proof.
  intros run. subst run.
  destruct (parseOptions rest) as [options | message] eqn:Hp.
  - rewrite (main_command _ _ options) by (discriminate || exact Hp).
    cbn [String.eqb Ascii.eqb Bool.eqb]. unfold verifyCommand.
    destruct (present (nth_error (getNoOptionArgs rest) 0)) as [code |];
      [| cbn; split; [now right |];
         split; [discriminate | intros (? & ? & ? & ? & _ & H & _);
                                discriminate H]].
    destruct (present (nth_error (getNoOptionArgs rest) 1)) as [secret |];
      [| cbn; split; [now right |];
         split; [discriminate | intros (? & ? & ? & ? & _ & _ & H & _);
                                discriminate H]].
    destruct (result (verifyTOTP createHmac now code (TextSecret secret)
                        (totpOptions options))) as [r | m] eqn:Hr.
    + destruct (valid r) eqn:Hv; cbn [exitCode].
      * split; [now left |]. split; [| reflexivity]. intros _.
        exists options, code, secret, r. auto.
      * split; [now right |]. split; [discriminate |].
        intros (o & c & s & r' & [= <-] & [= <-] & [= <-] & Hr' & Hv').
        rewrite Hr in Hr'. injection Hr' as <-. congruence.
    + cbn. split; [now right |]. split; [discriminate |].
      intros (o & c & s & r' & [= <-] & [= <-] & [= <-] & Hr' & _).
      rewrite Hr in Hr'. discriminate Hr'.
  - rewrite (main_refused _ _ message) by (discriminate || exact Hp).
    cbn. split; [now right |]. split; [discriminate |].
    intros (o & _ & _ & _ & H & _). discriminate H.
Qed.

(** [generate] with a secret that [decodeBase32] accepts prints the code
    alone, 6 digits or the 8 of [--digits=8], and ends with exit code 0. *)
Theorem X22_generate_prints_the_code rest options secret bytes :
  parseOptions rest = Parsed options ->
  present (nth_error (getNoOptionArgs rest) 0) = Some secret ->
  decodeBase32 secret = Return bytes ->
  exists codeText,
    main createHmac now randomBytes qrcodeCommand ("generate"%string :: rest)
    = {| stdout := [codeText]; stderr := []; exitCode := 0 |}
    /\ result (generateTOTP createHmac now (RawSecret bytes)
                 (totpOptions options))
       = Return codeText
    /\ allChars isDigit codeText = true
    /\ strlen codeText = default 6 (cliDigits options)
    /\ (strlen codeText = 6 \/ strlen codeText = 8).
Proof.
  intros Hp Hs Hdec.
  rewrite (main_command _ _ options) by (discriminate || exact Hp).
  cbn [String.eqb Ascii.eqb Bool.eqb]. unfold generateCommand. rewrite Hs.
  apply present_Some in Hs as [_ Hne].
  assert (Hk : keyBytes (TextSecret secret) = Some bytes).
  { cbn [keyBytes]. destruct (isEmpty secret) eqn:E;
      [apply isEmpty_true in E; contradiction | now rewrite Hdec]. }
  assert (Hd : default 6 (cliDigits options) = 6
               \/ default 6 (cliDigits options) = 8).
  { destruct (parseOptionsFrom_ranges rest noOptions options Hp) as (Hd & _);
      cbn; auto; lia. }
  destruct (generateTOTP_code createHmac now (TextSecret secret)
              (totpOptions options) bytes Hk)
    as (codeText & Hg & Hl & Ha); [cbn [totpOptions digits]; lia |].
  exists codeText. rewrite Hg. cbn [result fst].
  split; [reflexivity |]. split.
  - rewrite (generateTOTP_accepted createHmac now (RawSecret bytes)
               (totpOptions options) bytes eq_refl).
    rewrite (generateTOTP_accepted createHmac now (TextSecret secret)
               (totpOptions options) bytes Hk) in Hg.
    now rewrite Hg.
  - cbn [totpOptions digits] in Hl, Hd. rewrite Hl. auto.
Qed.

(** [generate] with a secret that [decodeBase32] refuses prints nothing
    on the output, the message of the decoder behind "Error: Invalid
    secret: " on the error stream, and ends with exit code 1. *)
Theorem X23_generate_reports_invalid_secret rest options secret cause :
  parseOptions rest = Parsed options ->
  present (nth_error (getNoOptionArgs rest) 0) = Some secret ->
  decodeBase32 secret = Throw cause ->
  main createHmac now randomBytes qrcodeCommand ("generate"%string :: rest)
  = {| stdout := [];
       stderr := [("Error: Invalid secret: " ++ cause)%string];
       exitCode := 1 |}.
Proof.
  intros Hp Hs Hdec.
  rewrite (main_command _ _ options) by (discriminate || exact Hp).
  cbn [String.eqb Ascii.eqb Bool.eqb]. unfold generateCommand. rewrite Hs.
  apply present_Some in Hs as [_ Hne].
  rewrite generateTOTP_refused.
  - destruct (isEmpty secret) eqn:E;
      [apply isEmpty_true in E; contradiction |].
    now rewrite Hdec.
  - cbn [keyBytes]. destruct (isEmpty secret); [reflexivity |].
    now rewrite Hdec.
Qed.

(** [create-secret] prints one secret of as many symbols of A-Z2-7 as the
    length asks for, 20 without one, when the random source fills the array
    with bytes. *)
Theorem X24_create_secret_prints_a_secret rest options n :
  (forall k, 0 < k ->
             Z.of_nat (length (randomBytes k)) = k
             /\ Forall (fun b => 0 <= b < 256) (randomBytes k)) ->
  parseOptions rest = Parsed options ->
  match present (nth_error (getNoOptionArgs rest) 0) with
  | Some text => parseInt text = Some n
  | None => n = 20
  end ->
  0 < n ->
  exists secret,
    main createHmac now randomBytes qrcodeCommand
      ("create-secret"%string :: rest)
    = {| stdout := [secret]; stderr := []; exitCode := 0 |}
    /\ strlen secret = n
    /\ allChars isBase32Char secret = true.
Proof.
  intros Hrand Hp Hlen Hn.
  rewrite (main_command _ _ options) by (discriminate || exact Hp).
  cbn [String.eqb Ascii.eqb Bool.eqb]. unfold createSecretCommand.
  destruct (Hrand n Hn) as [Hl Hb].
  destruct (generateRandomSecret_spec (randomBytes n) Hb) as (Hs & Ha & _).
  exists (generateRandomSecret (randomBytes n)).
  split; [| split; [now rewrite Hs | exact Ha]].
  destruct (present (nth_error (getNoOptionArgs rest) 0)) as [text |].
  - rewrite Hlen. destruct (Z.leb_spec n 0); [lia | reflexivity].
  - subst n. reflexivity.
Qed.

(** The commands of the engine end with exit code 0 or 1, print at most
    one text on each stream, and print on the error stream only when they
    end with 1. *)
Theorem X25_exit_codes_and_streams command rest :
  command <> "qrcode"%string ->
  let run := main createHmac now randomBytes qrcodeCommand (command :: rest) in
  (exitCode run = 0 \/ exitCode run = 1)
  /\ (length (stdout run) <= 1)%nat
  /\ (length (stderr run) <= 1)%nat
  /\ (stderr run <> [] -> exitCode run = 1).
Proof.
  intros Hq run. subst run. unfold main. cbn [nth_error tl present].
  apply String.eqb_neq in Hq.
  assert (Hrun : forall out err code,
             (code = 0 \/ code = 1) -> (length out <= 1)%nat ->
             (length err <= 1)%nat -> (err <> [] -> code = 1) ->
             let run := {| stdout := out; stderr := err; exitCode := code |} in
             (exitCode run = 0 \/ exitCode run = 1)
             /\ (length (stdout run) <= 1)%nat
             /\ (length (stderr run) <= 1)%nat
             /\ (stderr run <> [] -> exitCode run = 1)) by (cbn; auto).
  assert (Hfail : forall message,
             let run := failure message in
             (exitCode run = 0 \/ exitCode run = 1)
             /\ (length (stdout run) <= 1)%nat
             /\ (length (stderr run) <= 1)%nat
             /\ (stderr run <> [] -> exitCode run = 1))
    by (intros message; apply Hrun; cbn; auto).
  assert (Hout : forall text,
             let run := {| stdout := [text]; stderr := []; exitCode := 0 |} in
             (exitCode run = 0 \/ exitCode run = 1)
             /\ (length (stdout run) <= 1)%nat
             /\ (length (stderr run) <= 1)%nat
             /\ (stderr run <> [] -> exitCode run = 1))
    by (intros text; apply Hrun; cbn; auto; congruence).
  destruct (isEmpty command); [apply Hout |].
  destruct (_ || _); [apply Hout |].
  destruct (parseOptions rest) as [options | message]; [| apply Hfail].
  rewrite Hq.
  repeat match goal with
         | |- context [if String.eqb command ?s then _ else _] =>
             destruct (String.eqb command s)
         end.
  - unfold generateCommand.
    destruct (present _); [destruct (result _) |];
      first [apply Hout | apply Hfail].
  - unfold verifyCommand.
    destruct (present _); [destruct (present _) |];
      [destruct (result _) as [r |]; [destruct (valid r) |] | |];
      first [apply Hout | apply Hfail | apply Hrun; cbn; auto; congruence].
  - unfold createSecretCommand.
    destruct (present _) as [text |].
    + destruct (parseInt text) as [n |]; [destruct (n <=? 0) |];
        first [apply Hout | apply Hfail].
    + apply Hout.
  - apply Hrun; cbn; auto.
Qed.

End CliCommands.
Section CliValues.

Lemma split_plain s :
  (forall c, occursIn c s -> Ascii.eqb c "=" = false) ->
  split "=" s = [s].
Proof.
  induction s as [| c s IH]; intros H; cbn [split]; [reflexivity |].
  rewrite (H c) by now left.
  rewrite IH; [reflexivity |]. intros d Hd. apply H. now right.
Qed.

Lemma split_first a b :
  (forall c, occursIn c a -> Ascii.eqb c "=" = false) ->
  split "=" (a ++ String "=" b)%string = a :: split "=" b.
Proof.
  induction a as [| c a IH]; intros H; cbn [String.append split].
  - reflexivity.
  - rewrite (H c) by now left.
    rewrite IH; [reflexivity |]. intros d Hd. apply H. now right.
Qed.

Lemma split_nonempty s : split "=" s <> [].
Proof.
  destruct s as [| c s]; cbn [split]; [discriminate |].
  destruct (Ascii.eqb c "="); [discriminate |].
  destruct (split "=" s); discriminate.
Qed.

Lemma startsWith_dashes s : startsWith ("--" ++ s) "--" = true.
Proof. destruct s; reflexivity. Qed.

(** The value of an option ends at its second '=': what follows is
    dropped without a message. *)
Theorem X26_option_value_ends_at_equals options key value tail :
  (forall c, occursIn c key -> Ascii.eqb c "=" = false) ->
  (forall c, occursIn c value -> Ascii.eqb c "=" = false) ->
  parseOption options
    ("--" ++ key ++ String "=" (value ++ String "=" tail))%string
  = parseOption options ("--" ++ key ++ String "=" value)%string.
Proof.
  intros Hk Hv. unfold parseOption.
  rewrite !startsWith_dashes.
  change (substringFrom 2 ("--" ++ ?s)) with s.
  rewrite !split_first by assumption.
  rewrite (split_plain value) by assumption.
  destruct (split "=" tail) as [| t ts] eqn:E;
    [now apply split_nonempty in E | reflexivity].
Qed.

End CliValues.

Lemma X26_witness :
  (forall c, occursIn c "issuer" -> Ascii.eqb c "=" = false)
  /\ (forall c, occursIn c "My" -> Ascii.eqb c "=" = false)
  /\ parseOption noOptions "--issuer=My=App"
     = parseOption noOptions "--issuer=My"
  /\ parseOption noOptions "--issuer=My=App"
     = Parsed {| cliAlgorithm := None; cliDigits := None; cliPeriod := None;
                 cliWindow := None; cliIssuer := Some "My"%string;
                 cliAccount := None |}.
Proof.
  assert (H1 : forall c, occursIn c "issuer" -> Ascii.eqb c "=" = false).
  { intros c Hc. apply negb_true_iff.
    exact (proj1 (allChars_true (fun c => negb (Ascii.eqb c "=")) "issuer")
             eq_refl c Hc). }
  assert (H2 : forall c, occursIn c "My" -> Ascii.eqb c "=" = false).
  { intros c Hc. apply negb_true_iff.
    exact (proj1 (allChars_true (fun c => negb (Ascii.eqb c "=")) "My")
             eq_refl c Hc). }
  split; [exact H1 |]. split; [exact H2 |].
  split; [exact (X26_option_value_ends_at_equals noOptions "issuer" "My" "App"
                   H1 H2) |].
  vm_compute. reflexivity.
Defined.

Section CliInstances.

Lemma X22_witness :
  parseOptions ["JBSWY3DPEHPK3PXP"; "--digits=8"]%string
  = Parsed {| cliAlgorithm := None; cliDigits := Some 8; cliPeriod := None;
              cliWindow := None; cliIssuer := None; cliAccount := None |}
  /\ present (nth_error (getNoOptionArgs
                           ["JBSWY3DPEHPK3PXP"; "--digits=8"]%string) 0)
     = Some "JBSWY3DPEHPK3PXP"%string
  /\ decodeBase32 "JBSWY3DPEHPK3PXP" = Return testKey
  /\ exists codeText,
       main Crypto.hmac 1635000000000 sevens silentQrcode
         ["generate"; "JBSWY3DPEHPK3PXP"; "--digits=8"]%string
       = {| stdout := [codeText]; stderr := []; exitCode := 0 |}
       /\ strlen codeText = 8.
Proof.
  assert (H1 : parseOptions ["JBSWY3DPEHPK3PXP"; "--digits=8"]%string
               = Parsed {| cliAlgorithm := None; cliDigits := Some 8;
                           cliPeriod := None; cliWindow := None;
                           cliIssuer := None; cliAccount := None |})
    by (vm_compute; reflexivity).
  assert (H2 : present (nth_error (getNoOptionArgs
                                     ["JBSWY3DPEHPK3PXP"; "--digits=8"]%string)
                          0)
               = Some "JBSWY3DPEHPK3PXP"%string) by (vm_compute; reflexivity).
  assert (H3 : decodeBase32 "JBSWY3DPEHPK3PXP" = Return testKey)
    by (vm_compute; reflexivity).
  split; [exact H1 |]. split; [exact H2 |]. split; [exact H3 |].
  destruct (X22_generate_prints_the_code Crypto.hmac 1635000000000 sevens
              silentQrcode _ _ _ _ H1 H2 H3)
    as (codeText & Hm & _ & _ & Hl & _).
  exists codeText. split; [exact Hm | exact Hl].
Defined.

Lemma X23_witness :
  parseOptions ["INVALID!@#"]%string = Parsed noOptions
  /\ present (nth_error (getNoOptionArgs ["INVALID!@#"]%string) 0)
     = Some "INVALID!@#"%string
  /\ decodeBase32 "INVALID!@#" = Throw InvalidCharacter
  /\ main Crypto.hmac 1635000000000 sevens silentQrcode
       ["generate"; "INVALID!@#"]%string
     = {| stdout := [];
          stderr := [("Error: Invalid secret: " ++ InvalidCharacter)%string];
          exitCode := 1 |}.
Proof.
  assert (H1 : parseOptions ["INVALID!@#"]%string = Parsed noOptions)
    by (vm_compute; reflexivity).
  assert (H2 : present (nth_error (getNoOptionArgs ["INVALID!@#"]%string) 0)
               = Some "INVALID!@#"%string) by (vm_compute; reflexivity).
  assert (H3 : decodeBase32 "INVALID!@#" = Throw InvalidCharacter)
    by (vm_compute; reflexivity).
  split; [exact H1 |]. split; [exact H2 |]. split; [exact H3 |].
  exact (X23_generate_reports_invalid_secret Crypto.hmac 1635000000000 sevens
           silentQrcode _ _ _ _ H1 H2 H3).
Defined.

Lemma sevens_bytes k :
  0 < k ->
  Z.of_nat (length (sevens k)) = k
  /\ Forall (fun b => 0 <= b < 256) (sevens k).
Proof.
  intros Hk. unfold sevens. rewrite repeat_length. split; [lia |].
  apply List.Forall_forall. intros b Hb. apply repeat_spec in Hb. lia.
Qed.

Lemma X24_witness :
  (forall k, 0 < k ->
             Z.of_nat (length (sevens k)) = k
             /\ Forall (fun b => 0 <= b < 256) (sevens k))
  /\ parseOptions ["12"]%string = Parsed noOptions
  /\ parseInt "12" = Some 12
  /\ 0 < 12
  /\ exists secret,
       main Crypto.hmac 1635000000000 sevens silentQrcode
         ["create-secret"; "12"]%string
       = {| stdout := [secret]; stderr := []; exitCode := 0 |}
       /\ strlen secret = 12
       /\ allChars isBase32Char secret = true.
Proof.
  assert (H1 : parseOptions ["12"]%string = Parsed noOptions)
    by (vm_compute; reflexivity).
  assert (H2 : parseInt "12" = Some 12) by (vm_compute; reflexivity).
  assert (H3 : 0 < 12) by lia.
  split; [exact sevens_bytes |]. split; [exact H1 |]. split; [exact H2 |].
  split; [exact H3 |].
  exact (X24_create_secret_prints_a_secret Crypto.hmac 1635000000000 sevens
           silentQrcode ["12"]%string noOptions 12 sevens_bytes H1 H2 H3).
Defined.

Lemma X25_witness :
  "verify"%string <> "qrcode"%string
  /\ (let run := main Crypto.hmac 1635000000000 sevens silentQrcode
                   ["verify"; "123"]%string in
      (exitCode run = 0 \/ exitCode run = 1)
      /\ (length (stdout run) <= 1)%nat
      /\ (length (stderr run) <= 1)%nat
      /\ (stderr run <> [] -> exitCode run = 1)).
Proof.
  assert (H : "verify"%string <> "qrcode"%string) by discriminate.
  split; [exact H |].
  exact (X25_exit_codes_and_streams Crypto.hmac 1635000000000 sevens
           silentQrcode "verify" ["123"]%string H).
Defined.

End CliInstances.
